(** * AskUp: the vote endpoint of [app.py]

    A shallow embedding of the [vote] view (app.py, lines 208-248) together
    with the parts of the program it relies on: the three MongoDB
    collections, the Flask session, the [login_required] decorator and the
    [try ... except Exception] wrapper of the view.

    Conventions of the embedding.
    - A collection is a finite map from [_id] to document ([_id] is unique
      in a MongoDB collection).
    - A votable document carries the two fields the view reads with
      [item.get(..., default)], hence both optional, and the remaining
      fields, which the view neither reads nor writes.
    - [bson.objectid.ObjectId] is a library outside the repository: its
      string constructor is a parameter [ObjectId], [None] standing for the
      [InvalidId] exception it raises.
    - Python exceptions are values of [exn]; a view is a function from the
      store to an outcome and a store.  Every call to the driver is recorded
      in the store's log [ops], so that reads and writes can be counted.
    - The documents are those the program writes: [votes] is an integer
      and the elements of [voted_by] are dicts with the two keys
      ['user_id'] and ['type'], as lines 126-127, 198-199 and 237 make them.
    - The driver calls themselves are modelled on a reachable server: they
      do not raise. *)

From stdpp Require Import base strings list gmap fin_maps.
From Stdlib Require Import ZArith Lia Ascii.

(** ** Exceptions

    The two exceptions the view can meet: [InvalidId], raised by
    [ObjectId(s)], and [KeyError], raised by [session[k]]. *)

Inductive exn :=
  | InvalidId (s : string)
  | KeyError (k : string).

(** A statement returns a value or raises. *)
Inductive outcome (A : Type) :=
  | Return (a : A)
  | Raise (e : exn).
Arguments Return {A} a.
Arguments Raise {A} e.

Section AskUp.

Context {Oid : Type} `{Countable Oid}.
Context {Fields : Type}.

(** [ObjectId(s)] for a string [s]; [None] when bson raises [InvalidId]. *)
Variable ObjectId : string → option Oid.

(** ** Documents *)

(** An element of [voted_by]: the dict [{'user_id': ..., 'type': ...}]. *)
Record Vote := mkVote { v_user_id : Oid; v_type : string }.

(** A question or an answer.  [votes] and [voted_by] are absent when the
    document has no such key. *)
Record Item := mkItem {
  votes : option Z;
  voted_by : option (list Vote);
  fields : Fields
}.

(** [item.get('voted_by', d)] and [item.get('votes', d)]. *)
Definition get_voted_by (item : Item) (d : list Vote) : list Vote :=
  default d (voted_by item).

Definition get_votes (item : Item) (d : Z) : Z :=
  default d (votes item).

(** ** The store *)

(** The collection objects a view can hold in its local [collection]. *)
Inductive Collection := questions_collection | answers_collection.

#[global] Instance Collection_eq_dec : EqDecision Collection.
Proof. solve_decision. Defined.

(** One call to the driver. *)
Inductive db_op :=
  | FindOne (c : Collection) (id : Oid)
  | UpdateOne (c : Collection) (id : Oid) (new_votes : Z) (new_voted_by : list Vote).

Record Mongo := mkMongo {
  users : gmap Oid Fields;
  questions : gmap Oid Item;
  answers : gmap Oid Item;
  ops : list db_op
}.

(** The collection a call goes to. *)
Definition op_collection (o : db_op) : Collection :=
  match o with
  | FindOne c _ => c
  | UpdateOne c _ _ _ => c
  end.

Definition docs (c : Collection) (st : Mongo) : gmap Oid Item :=
  match c with
  | questions_collection => questions st
  | answers_collection => answers st
  end.

Definition set_docs (c : Collection) (m : gmap Oid Item) (st : Mongo) : Mongo :=
  match c with
  | questions_collection =>
      mkMongo (users st) m (answers st) (ops st)
  | answers_collection =>
      mkMongo (users st) (questions st) m (ops st)
  end.

Definition log (o : db_op) (st : Mongo) : Mongo :=
  mkMongo (users st) (questions st) (answers st) (ops st ++ [o]).

(** ** The monad of views *)

Definition M (A : Type) : Type := Mongo → outcome A * Mongo.

#[global] Instance M_ret : MRet M := λ A a st, (Return a, st).

#[global] Instance M_bind : MBind M := λ A B f m st,
  match m st with
  | (Return a, st') => f a st'
  | (Raise e, st') => (Raise e, st')
  end.

Definition raise {A} (e : exn) : M A := λ st, (Raise e, st).

(** [try: body except Exception as e: handler]. *)
Definition try_except {A} (body : M A) (handler : exn → M A) : M A := λ st,
  match body st with
  | (Return a, st') => (Return a, st')
  | (Raise e, st') => handler e st'
  end.

(** [ObjectId(s)] as a statement that may raise. *)
Definition new_ObjectId (s : string) : M Oid :=
  match ObjectId s with
  | Some oid => mret oid
  | None => raise (InvalidId s)
  end.

(** [session[k]]. *)
Definition session_get (session : gmap string string) (k : string) : M string :=
  match session !! k with
  | Some v => mret v
  | None => raise (KeyError k)
  end.

(** [collection.find_one({'_id': oid})]. *)
Definition find_one (c : Collection) (oid : Oid) : M (option Item) := λ st,
  (Return (docs c st !! oid), log (FindOne c oid) st).

(** The effect of [{'$set': {'votes': v, 'voted_by': vb}}] on a document. *)
Definition set_vote_fields (v : Z) (vb : list Vote) (item : Item) : Item :=
  mkItem (Some v) (Some vb) (fields item).

(** [collection.update_one({'_id': oid}, {'$set': {...}})]: the document
    with this [_id] is updated when there is one; nothing is inserted
    otherwise. *)
Definition update_one (c : Collection) (oid : Oid) (v : Z) (vb : list Vote) : M unit := λ st,
  (Return (), log (UpdateOne c oid v vb)
                (set_docs c (alter (set_vote_fields v vb) oid (docs c st)) st)).

(** ** Responses *)

Inductive Json :=
  | JVotes (n : Z)          (* {'votes': n} *)
  | JError (msg : string).  (* {'error': msg} *)

Inductive Response :=
  | Resp (body : Json) (status : Z)
  | RedirectTo (endpoint : string).

(** [jsonify(d)] alone answers with status 200. *)
Definition jsonify (d : Json) : Response := Resp d 200.

(** ** The view *)

(** [user_vote['type'] = vote_type]: a dict of [voted_by] updated in place. *)
Definition set_type (user_vote : Vote) (vote_type : string) : Vote :=
  mkVote (v_user_id user_vote) vote_type.

(** The body of [vote] (lines 211-248).  [next(...)] returns the first
    element of [voted_by] that matches, or [None]; an element found is a
    dict with two keys, hence true in [if user_vote].  As this element is
    the dict held by the list, assigning its ['type'] changes the list at
    that position.  A document found is true in [if not item] as well. *)
Definition vote (session : gmap string string)
    (item_type item_id vote_type : string) : M Response :=
  try_except
    (let collection :=
       if decide (item_type = "question") then questions_collection
       else answers_collection in
     oid ← new_ObjectId item_id;
     item ← find_one collection oid;
     match item with
     | None => mret (Resp (JError "Item not found") 404)
     | Some item =>
         uid ← session_get session "user_id";
         user_id ← new_ObjectId uid;
         let voted_by := get_voted_by item [] in
         let current_votes := get_votes item 0%Z in
         let user_vote := list_find (λ vote, v_user_id vote = user_id) voted_by in
         let '(voted_by, current_votes) :=
           match user_vote with
           | Some (i, user_vote) =>
               if decide (v_type user_vote = vote_type) then
                 (filter (λ vote, v_user_id vote ≠ user_id) voted_by,
                  (current_votes - (if decide (vote_type = "up") then 1 else -1))%Z)
               else
                 (<[i := set_type user_vote vote_type]> voted_by,
                  (current_votes + (if decide (vote_type = "up") then 2 else -2))%Z)
           | None =>
               (voted_by ++ [mkVote user_id vote_type],
                (current_votes + (if decide (vote_type = "up") then 1 else -1))%Z)
           end in
         oid' ← new_ObjectId item_id;
         update_one collection oid' current_votes voted_by;;
         mret (jsonify (JVotes current_votes))
     end)
    (λ e, mret (Resp (JError "Voting failed") 500)).

(** [login_required(f)]: the view runs only when the session has a
    ['user_id']; the request is redirected to the login page otherwise. *)
Definition login_required (f : gmap string string → M Response)
    (session : gmap string string) : M Response :=
  match session !! "user_id" with
  | Some _ => f session
  | None => mret (RedirectTo "login")
  end.

(** The view registered for [/vote/<item_type>/<item_id>/<vote_type>]. *)
Definition vote_view (session : gmap string string)
    (item_type item_id vote_type : string) : M Response :=
  login_required (λ s, vote s item_type item_id vote_type) session.

(** ** Derived notions used to state the properties *)

(** The collection chosen at line 212. *)
Definition target (item_type : string) : Collection :=
  if decide (item_type = "question") then questions_collection
  else answers_collection.

(** Lines 223-238 as a function of the acting user, the requested type and
    the loaded [voted_by] and [votes]: what [vote] hands to [update_one]. *)
Definition ledger (user_id : Oid) (vote_type : string)
    (voted_by : list Vote) (current_votes : Z) : list Vote * Z :=
  match list_find (λ vote, v_user_id vote = user_id) voted_by with
  | Some (i, user_vote) =>
      if decide (v_type user_vote = vote_type) then
        (filter (λ vote, v_user_id vote ≠ user_id) voted_by,
         (current_votes - (if decide (vote_type = "up") then 1 else -1))%Z)
      else
        (<[i := set_type user_vote vote_type]> voted_by,
         (current_votes + (if decide (vote_type = "up") then 2 else -2))%Z)
  | None =>
      (voted_by ++ [mkVote user_id vote_type],
       (current_votes + (if decide (vote_type = "up") then 1 else -1))%Z)
  end.

(** The store after a successful vote on the document [oid] of [c]. *)
Definition voted (c : Collection) (oid : Oid) (v : Z) (vb : list Vote)
    (st : Mongo) : Mongo :=
  let st1 := log (FindOne c oid) st in
  log (UpdateOne c oid v vb)
      (set_docs c (alter (set_vote_fields v vb) oid (docs c st1)) st1).

(** The acting user of a session, when it has one with a valid id. *)
Definition acting_user (session : gmap string string) : option Oid :=
  session !! "user_id" ≫= ObjectId.

(** The contribution of one entry of [voted_by] to the tally. *)
Definition weight (vote : Vote) : Z :=
  if decide (v_type vote = "up") then 1%Z
  else if decide (v_type vote = "down") then (-1)%Z
  else 0%Z.

Definition tally (voted_by : list Vote) : Z :=
  foldr (λ vote acc, (weight vote + acc)%Z) 0%Z voted_by.

(** A document as [ask_question] (lines 126-127) and [post_answer]
    (lines 198-199) insert it. *)
Definition created (item : Item) : Prop :=
  votes item = Some 0%Z ∧ voted_by item = Some [].

(** The invariant of a votable document: one entry per user at most, each
    of type up or down, and [votes] the sum of their weights. *)
Definition consistent (item : Item) : Prop :=
  NoDup (v_user_id <$> get_voted_by item []) ∧
  Forall (λ vote, v_type vote = "up" ∨ v_type vote = "down") (get_voted_by item []) ∧
  get_votes item 0%Z = tally (get_voted_by item []).

(** A request to the vote endpoint, with the session it comes with. *)
Record Request := mkRequest {
  r_session : gmap string string;
  r_item_type : string;
  r_item_id : string;
  r_vote_type : string
}.

(** Requests served one after the other. *)
Definition serve (st : Mongo) (r : Request) : Mongo :=
  (vote (r_session r) (r_item_type r) (r_item_id r) (r_vote_type r) st).2.

Definition serve_all (rs : list Request) (st : Mongo) : Mongo :=
  foldl serve st rs.

End AskUp.

(** ** A concrete identifier type

    Identifiers written as 24 hexadecimal digits, compared without regard
    to the case of the letters (bson compares the 12 bytes they denote).
    The properties below hold for every [ObjectId]; this instance serves to
    run the view on examples. *)

Definition hex_digit (a : ascii) : bool :=
  let n := nat_of_ascii a in
  ((48 <=? n) && (n <=? 57) || (97 <=? n) && (n <=? 102) || (65 <=? n) && (n <=? 70))%nat.

Definition lower (a : ascii) : ascii :=
  let n := nat_of_ascii a in
  if ((65 <=? n) && (n <=? 70))%nat then ascii_of_nat (n + 32) else a.

Definition hex_ObjectId (s : string) : option string :=
  let l := String.list_ascii_of_string s in
  if ((length l =? 24)%nat && forallb hex_digit l)
  then Some (String.string_of_list_ascii (lower <$> l)) else None.

(** Two users, a question and an answer. *)
Definition alice : string := "aaaaaaaaaaaaaaaaaaaaaaaa".
Definition bob : string := "bbbbbbbbbbbbbbbbbbbbbbbb".
Definition q1 : string := "0123456789abcdef01234567".
Definition a1 : string := "89abcdef0123456789abcdef".

Definition as_user (u : string) : gmap string string := {["user_id" := u]}.

Definition up (u : string) : Vote (Oid:=string) := mkVote u "up".
Definition down (u : string) : Vote (Oid:=string) := mkVote u "down".

(** A store with the question [q1] and the answer [a1], both holding the
    given tally and voter record. *)
Definition forum (v : Z) (vb : list (Vote (Oid:=string))) : Mongo (Oid:=string) (Fields:=string) :=
  mkMongo ∅ {[q1 := mkItem (Some v) (Some vb) "How do I vote?"]}
            {[a1 := mkItem (Some v) (Some vb) "Click the arrow."]} [].

(** ** The tags of a question

    [ask_question] (line 118) makes the tags of a question from the
    [tags] field of the form:
    [[tag.strip() for tag in request.form['tags'].split(',') if tag.strip()]].
    A Python string is a sequence of characters; the characters are a type
    parameter, with the comma and the predicate of [str.isspace]. *)

Section Tags.

Context {char : Type} `{EqDecision char}.
Variable comma : char.
Variable isspace : char → bool.

(** [s.split(',')]: the pieces of [s] between its commas, one more than
    it has commas. *)
Fixpoint str_split (s : list char) : list (list char) :=
  match s with
  | [] => [[]]
  | ch :: s' =>
      if decide (ch = comma) then [] :: str_split s'
      else match str_split s' with
           | piece :: pieces => (ch :: piece) :: pieces
           | [] => [[ch]]
           end
  end.

(** [s.lstrip()], [s.rstrip()] and [s.strip()]. *)
Fixpoint lstrip (s : list char) : list char :=
  match s with
  | [] => []
  | ch :: s' => if isspace ch then lstrip s' else ch :: s'
  end.

Definition rstrip (s : list char) : list char :=
  reverse (lstrip (reverse s)).

Definition strip (s : list char) : list char :=
  rstrip (lstrip s).

(** Line 118; a string is true in [if tag.strip()] when it is not empty. *)
Definition ask_question_tags (form_tags : list char) : list (list char) :=
  strip <$> filter (λ tag, strip tag ≠ []) (str_split form_tags).

End Tags.

(** Characters as bytes and the white space of ASCII, to run the tags on
    examples. *)
Definition ascii_isspace (a : ascii) : bool :=
  let n := nat_of_ascii a in
  ((9 <=? n) && (n <=? 13) || (28 <=? n) && (n <=? 32))%nat.

Definition chars (s : string) : list ascii := String.list_ascii_of_string s.

(** ** Logging out

    [logout] (lines 106-110): [session.pop('user_id', None)], which does
    not raise when the key is absent, then [flash(...)] and the redirect
    to the index.  The result is the session left, the message flashed and
    the response; Flask keeps flashed messages under a key of its own,
    which is not one of the string-valued keys modelled here. *)
Definition logout (session : gmap string string)
    : gmap string string * string * Response :=
  (delete "user_id" session, "You have been logged out", RedirectTo "index").

(** * Properties *)

Section Properties.

Context {Oid : Type} `{Countable Oid}.
Context {Fields : Type}.
Variable ObjectId : string → option Oid.

Implicit Types (st : Mongo (Oid:=Oid) (Fields:=Fields)).
Implicit Types (item : Item (Oid:=Oid) (Fields:=Fields)).
Implicit Types (vb : list (Vote (Oid:=Oid))) (u oid : Oid) (c : Collection).
Implicit Types (session : gmap string string).

(** ** The four ways a vote can end *)

Ltac run_vote :=
  unfold vote, try_except, new_ObjectId, session_get, find_one, update_one,
    mbind, M_bind, mret, M_ret, raise; cbn.

Lemma vote_invalid_id session item_type item_id vote_type st :
  ObjectId item_id = None →
  vote ObjectId session item_type item_id vote_type st
  = (Return (Resp (JError "Voting failed") 500), st).
Proof. intros Hid. run_vote. rewrite Hid. reflexivity. Qed.

Lemma vote_not_found session item_type item_id vote_type st oid :
  ObjectId item_id = Some oid →
  docs (target item_type) st !! oid = None →
  vote ObjectId session item_type item_id vote_type st
  = (Return (Resp (JError "Item not found") 404),
     log (FindOne (target item_type) oid) st).
Proof.
  intros Hid Hno. run_vote. rewrite Hid. fold (target item_type).
  rewrite Hno. reflexivity.
Qed.

Lemma vote_no_user session item_type item_id vote_type st oid item :
  ObjectId item_id = Some oid →
  docs (target item_type) st !! oid = Some item →
  acting_user ObjectId session = None →
  vote ObjectId session item_type item_id vote_type st
  = (Return (Resp (JError "Voting failed") 500),
     log (FindOne (target item_type) oid) st).
Proof.
  intros Hid Hit Hu. run_vote. rewrite Hid. fold (target item_type).
  rewrite Hit. unfold acting_user in Hu.
  destruct (session !! "user_id") as [uid|]; cbn in *; [|reflexivity].
  rewrite Hu. reflexivity.
Qed.

Lemma vote_found session item_type item_id vote_type st oid item u :
  ObjectId item_id = Some oid →
  docs (target item_type) st !! oid = Some item →
  acting_user ObjectId session = Some u →
  let r := ledger u vote_type (get_voted_by item []) (get_votes item 0%Z) in
  vote ObjectId session item_type item_id vote_type st
  = (Return (Resp (JVotes r.2) 200), voted (target item_type) oid r.2 r.1 st).
Proof.
  intros Hid Hit Hu r. run_vote. rewrite Hid. fold (target item_type).
  rewrite Hit. unfold acting_user in Hu.
  destruct (session !! "user_id") as [uid|]; cbn in *; [|discriminate].
  rewrite Hu. subst r. unfold ledger.
  destruct (list_find _ _) as [[i user_vote]|]; [case_decide|]; reflexivity.
Qed.

(** ** The store after a vote *)

Lemma docs_voted c oid v vb st c' oid' :
  docs c' (voted c oid v vb st) !! oid'
  = if decide (c' = c ∧ oid' = oid)
    then set_vote_fields v vb <$> docs c st !! oid
    else docs c' st !! oid'.
Proof.
  unfold voted. case_decide as Hd.
  - destruct Hd as [-> ->]. destruct c; cbn; rewrite lookup_alter_eq; done.
  - destruct c, c'; cbn; try done;
      (destruct (decide (oid' = oid)) as [->|Hne];
        [exfalso; apply Hd; done | rewrite lookup_alter_ne; done]).
Qed.

Lemma docs_voted_eq c oid v vb st item :
  docs c st !! oid = Some item →
  docs c (voted c oid v vb st) !! oid = Some (mkItem (Some v) (Some vb) (fields item)).
Proof.
  intros Hit. rewrite docs_voted, decide_True by done. rewrite Hit. done.
Qed.

Lemma docs_voted_ne c oid v vb st c' oid' :
  (c', oid') ≠ (c, oid) →
  docs c' (voted c oid v vb st) !! oid' = docs c' st !! oid'.
Proof.
  intros Hne. rewrite docs_voted, decide_False; [done|].
  intros [-> ->]. done.
Qed.

Lemma ops_voted c oid v vb st :
  ops (voted c oid v vb st) = ops st ++ [FindOne c oid; UpdateOne c oid v vb].
Proof. unfold voted. destruct c; cbn; rewrite <- app_assoc; done. Qed.

Lemma users_voted c oid v vb st : users (voted c oid v vb st) = users st.
Proof. unfold voted. destruct c; done. Qed.

Lemma target_not_question item_type :
  item_type ≠ "question" → target item_type = answers_collection.
Proof. intros Hne. unfold target. rewrite decide_False; done. Qed.

(** Every vote ends in one of the four ways above. *)
Lemma vote_cases session item_type item_id vote_type st :
  let c := target item_type in
  let res := vote ObjectId session item_type item_id vote_type st in
  (ObjectId item_id = None ∧
   res = (Return (Resp (JError "Voting failed") 500), st)) ∨
  (∃ oid, ObjectId item_id = Some oid ∧ docs c st !! oid = None ∧
   res = (Return (Resp (JError "Item not found") 404), log (FindOne c oid) st)) ∨
  (∃ oid item, ObjectId item_id = Some oid ∧ docs c st !! oid = Some item ∧
   acting_user ObjectId session = None ∧
   res = (Return (Resp (JError "Voting failed") 500), log (FindOne c oid) st)) ∨
  (∃ oid item u, ObjectId item_id = Some oid ∧ docs c st !! oid = Some item ∧
   acting_user ObjectId session = Some u ∧
   let r := ledger u vote_type (get_voted_by item []) (get_votes item 0%Z) in
   res = (Return (Resp (JVotes r.2) 200), voted c oid r.2 r.1 st)).
Proof.
  intros c res. subst c res.
  destruct (ObjectId item_id) as [oid|] eqn:Hid.
  2: { left. split; [done|]. by apply vote_invalid_id. }
  right. destruct (docs (target item_type) st !! oid) as [item|] eqn:Hit.
  2: { left. exists oid. split_and!; [done..|]. by apply vote_not_found. }
  right. destruct (acting_user ObjectId session) as [u|] eqn:Hu.
  - right. exists oid, item, u. split_and!; [done..|].
    by apply vote_found.
  - left. exists oid, item. split_and!; [done..|].
    by eapply vote_no_user.
Qed.

(** ** Errors *)

(** C10. An [item_id] that [ObjectId] rejects makes the view answer
    [{'error': 'Voting failed'}] with status 500, not the 404 of a missing
    item, and the store is left as it was: no document is changed and no
    call reaches the driver.  Behind [login_required] the same holds for
    every session that is logged in. *)
Theorem vote_invalid_item_id session item_type item_id vote_type st :
  ObjectId item_id = None →
  vote ObjectId session item_type item_id vote_type st
  = (Return (Resp (JError "Voting failed") 500), st) ∧
  (is_Some (session !! "user_id") →
   vote_view ObjectId session item_type item_id vote_type st
   = (Return (Resp (JError "Voting failed") 500), st)).
Proof.
  intros Hid. split; [by apply vote_invalid_id|].
  intros [uid Hs]. unfold vote_view, login_required. rewrite Hs.
  by apply vote_invalid_id.
Qed.

(** C7. When the targeted collection holds no document under the given
    id, the view answers [{'error': 'Item not found'}] with status 404; the
    only call it makes is the [find_one], no [update_one] is issued, and
    the three collections are unchanged. *)
Theorem vote_item_not_found session item_type item_id vote_type st oid :
  ObjectId item_id = Some oid →
  docs (target item_type) st !! oid = None →
  let res := vote ObjectId session item_type item_id vote_type st in
  res.1 = Return (Resp (JError "Item not found") 404) ∧
  ops res.2 = ops st ++ [FindOne (target item_type) oid] ∧
  questions res.2 = questions st ∧
  answers res.2 = answers st ∧
  users res.2 = users st.
Proof.
  intros Hid Hno res. subst res.
  rewrite (vote_not_found _ _ _ _ _ _ Hid Hno). done.
Qed.

(** ** Which collection, which calls *)

(** The calls of a vote all go to the targeted collection, and the
    documents of the other collections are not changed. *)
Lemma vote_frame session item_type item_id vote_type st :
  let c := target item_type in
  let res := vote ObjectId session item_type item_id vote_type st in
  (∃ new, ops res.2 = ops st ++ new ∧ Forall (λ o, op_collection o = c) new) ∧
  (∀ c', c' ≠ c → docs c' res.2 = docs c' st) ∧
  users res.2 = users st.
Proof.
  intros c res.
  destruct (vote_cases session item_type item_id vote_type st)
    as [[_ Hr]|[(oid & _ & _ & Hr)|[(oid & item & _ & _ & _ & Hr)
       |(oid & item & u & _ & _ & _ & Hr)]]];
    fold c in Hr; fold res in Hr; rewrite Hr; cbn.
  - split_and!; [|done..]. exists []. by rewrite app_nil_r.
  - split_and!; [|by intros []|done]. exists [FindOne c oid].
    split; [done|]. by repeat constructor.
  - split_and!; [|by intros []|done]. exists [FindOne c oid].
    split; [done|]. by repeat constructor.
  - split_and!.
    + eexists. split; [apply ops_voted|]. by repeat constructor.
    + intros c' Hc'. apply map_eq. intros i. apply docs_voted_ne. congruence.
    + apply users_voted.
Qed.

(** C9. Whatever [item_type] is, as long as it is not the string
    [question], the vote goes to the answers.  The document is looked up
    in [answers_collection], by a [find_one] on it, whatever the questions
    hold under the same id: without a document there the answer is 404;
    with one, and an acting user, it is this document of the answers that
    the [update_one] writes, with the tally returned.  The view does
    exactly what it does for [answer], each of its calls to the driver is
    made on [answers_collection], and the questions are left as they were. *)
Theorem vote_other_item_type session item_type item_id vote_type st :
  item_type ≠ "question" →
  let res := vote ObjectId session item_type item_id vote_type st in
  res = vote ObjectId session "answer" item_id vote_type st ∧
  (∃ new, ops res.2 = ops st ++ new ∧
          Forall (λ o, op_collection o = answers_collection) new) ∧
  questions res.2 = questions st ∧
  ∀ oid, ObjectId item_id = Some oid →
    match answers st !! oid with
    | None =>
        res.1 = Return (Resp (JError "Item not found") 404) ∧
        ops res.2 = ops st ++ [FindOne answers_collection oid] ∧
        answers res.2 = answers st
    | Some item =>
        match acting_user ObjectId session with
        | None =>
            res.1 = Return (Resp (JError "Voting failed") 500) ∧
            ops res.2 = ops st ++ [FindOne answers_collection oid] ∧
            answers res.2 = answers st
        | Some u =>
            let r := ledger u vote_type (get_voted_by item []) (get_votes item 0%Z) in
            res.1 = Return (Resp (JVotes r.2) 200) ∧
            ops res.2 = ops st ++ [FindOne answers_collection oid;
                                   UpdateOne answers_collection oid r.2 r.1] ∧
            answers res.2 !! oid
            = Some (mkItem (Some r.2) (Some r.1) (fields item))
        end
    end.
Proof.
  intros Hne res.
  destruct (vote_frame session item_type item_id vote_type st)
    as (Hops & Hdocs & _).
  pose proof (target_not_question _ Hne) as Ht.
  rewrite Ht in Hops, Hdocs.
  split_and!; [|done|apply (Hdocs questions_collection); discriminate|].
  { subst res. unfold vote.
    rewrite (decide_False (P:=item_type = "question")) by done. reflexivity. }
  intros oid Hid. subst res.
  destruct (answers st !! oid) as [item|] eqn:Hit.
  - assert (docs (target item_type) st !! oid = Some item) as Hit'
      by by rewrite Ht.
    destruct (acting_user ObjectId session) as [u|] eqn:Hu.
    + rewrite (vote_found _ _ _ vote_type _ _ _ _ Hid Hit' Hu), Ht.
      cbn [fst snd]. split_and!; [done|apply ops_voted|].
      by apply (docs_voted_eq answers_collection).
    + rewrite (vote_no_user _ _ _ vote_type _ _ _ Hid Hit' Hu), Ht. done.
  - assert (docs (target item_type) st !! oid = None) as Hit'
      by by rewrite Ht.
    rewrite (vote_not_found _ _ _ vote_type _ _ Hid Hit'), Ht. done.
Qed.

(** C8. A vote that succeeds (status 200) has read its target once and
    written it once: the log grows by one [find_one] and one [update_one],
    both on the document [oid] of the targeted collection; this document
    gets the returned tally and the written list and keeps its other
    fields; every other document, and the users, are unchanged. *)
Theorem vote_success_effects session item_type item_id vote_type st body :
  let c := target item_type in
  let res := vote ObjectId session item_type item_id vote_type st in
  res.1 = Return (Resp body 200) →
  ∃ oid item n vb,
    ObjectId item_id = Some oid ∧
    docs c st !! oid = Some item ∧
    body = JVotes n ∧
    ops res.2 = ops st ++ [FindOne c oid; UpdateOne c oid n vb] ∧
    docs c res.2 !! oid = Some (mkItem (Some n) (Some vb) (fields item)) ∧
    (∀ c' oid', (c', oid') ≠ (c, oid) → docs c' res.2 !! oid' = docs c' st !! oid') ∧
    users res.2 = users st.
Proof.
  intros c res Hok.
  destruct (vote_cases session item_type item_id vote_type st)
    as [[_ Hr]|[(oid & _ & _ & Hr)|[(oid & item & _ & _ & _ & Hr)
       |(oid & item & u & Hid & Hit & _ & Hr)]]];
    fold c in Hr; fold res in Hr; rewrite Hr in Hok |- *; cbn in Hok;
    try discriminate.
  injection Hok as <-. eexists oid, item, _, _. cbn.
  split_and!; [done..|apply ops_voted|by apply docs_voted_eq| |apply users_voted].
  intros c' oid' Hne. by apply docs_voted_ne.
Qed.

(** ** The three cases of a vote *)

Lemma list_find_None_not_elem u vb :
  list_find (λ vote, v_user_id vote = u) vb = None ↔ u ∉ v_user_id <$> vb.
Proof.
  rewrite list_find_None, Forall_forall, list_elem_of_fmap. split.
  - intros Hall (e & -> & He). by apply (Hall e).
  - intros Hno e He Heq. apply Hno. by exists e.
Qed.

Lemma ledger_new u vote_type vb v :
  u ∉ v_user_id <$> vb →
  ledger u vote_type vb v
  = (vb ++ [mkVote u vote_type],
     (v + (if decide (vote_type = "up") then 1 else -1))%Z).
Proof.
  intros Hnew. unfold ledger.
  apply list_find_None_not_elem in Hnew. by rewrite Hnew.
Qed.

(** C5. When [voted_by] has no entry for the acting user, the pair of the
    user and the requested type is appended at its end and [votes] moves
    by +1 for [up] and by -1 for anything else; both fields are written by
    one [update_one], the only write, and the new tally is returned. *)
Theorem vote_new session item_type item_id vote_type st oid item u :
  ObjectId item_id = Some oid →
  docs (target item_type) st !! oid = Some item →
  acting_user ObjectId session = Some u →
  u ∉ v_user_id <$> get_voted_by item [] →
  let c := target item_type in
  let vb' := get_voted_by item [] ++ [mkVote u vote_type] in
  let v' := (get_votes item 0 + (if decide (vote_type = "up") then 1 else -1))%Z in
  let res := vote ObjectId session item_type item_id vote_type st in
  res.1 = Return (Resp (JVotes v') 200) ∧
  docs c res.2 !! oid = Some (mkItem (Some v') (Some vb') (fields item)) ∧
  ops res.2 = ops st ++ [FindOne c oid; UpdateOne c oid v' vb'].
Proof.
  intros Hid Hit Hu Hnew c vb' v' res. subst res.
  rewrite (vote_found _ _ _ _ _ _ _ _ Hid Hit Hu), ledger_new by done. cbn.
  split_and!; [done|by apply docs_voted_eq|apply ops_voted].
Qed.

(** A vote that goes through, told by what it leaves in the document. *)
Lemma vote_step session item_type item_id vote_type st oid item u :
  ObjectId item_id = Some oid →
  docs (target item_type) st !! oid = Some item →
  acting_user ObjectId session = Some u →
  let r := ledger u vote_type (get_voted_by item []) (get_votes item 0%Z) in
  let res := vote ObjectId session item_type item_id vote_type st in
  res.1 = Return (Resp (JVotes r.2) 200) ∧
  docs (target item_type) res.2 !! oid
  = Some (mkItem (Some r.2) (Some r.1) (fields item)).
Proof.
  intros Hid Hit Hu r res. subst res.
  rewrite (vote_found _ _ _ _ _ _ _ _ Hid Hit Hu). fold r. cbn.
  split; [done|]. by apply docs_voted_eq.
Qed.

Lemma filter_other_users u vb :
  u ∉ v_user_id <$> vb → filter (λ vote, v_user_id vote ≠ u) vb = vb.
Proof.
  induction vb as [|e vb IH]; [done|]. rewrite fmap_cons, not_elem_of_cons.
  intros [Hne Hno]. rewrite filter_cons_True by done. by rewrite IH.
Qed.

Lemma list_find_snoc_new u vote_type vb :
  u ∉ v_user_id <$> vb →
  list_find (λ vote, v_user_id vote = u) (vb ++ [mkVote u vote_type])
  = Some (length vb, mkVote u vote_type).
Proof.
  intros Hno. apply list_find_None_not_elem in Hno.
  rewrite list_find_app_r by done. cbn. rewrite decide_True by done. cbn.
  by rewrite ?Nat.add_0_r.
Qed.

(** The entry that decides is the one the search of line 223 returns, the
    first entry of the acting user in [voted_by].  When its type differs
    from the requested one, this entry gets the requested type at the
    position [i] where it stands, the list keeps its length, every other
    position keeps its entry, and [votes] moves by +2 for [up] and by -2
    for anything else. *)
Lemma vote_flip session item_type item_id vote_type st oid item u i e :
  ObjectId item_id = Some oid →
  docs (target item_type) st !! oid = Some item →
  acting_user ObjectId session = Some u →
  list_find (λ vote, v_user_id vote = u) (get_voted_by item []) = Some (i, e) →
  v_type e ≠ vote_type →
  let vb := get_voted_by item [] in
  let v' := (get_votes item 0 + (if decide (vote_type = "up") then 2 else -2))%Z in
  let res := vote ObjectId session item_type item_id vote_type st in
  res.1 = Return (Resp (JVotes v') 200) ∧
  ∃ vb', docs (target item_type) res.2 !! oid
         = Some (mkItem (Some v') (Some vb') (fields item)) ∧
    length vb' = length vb ∧
    vb' !! i = Some (mkVote u vote_type) ∧
    ∀ j, j ≠ i → vb' !! j = vb !! j.
Proof.
  intros Hid Hit Hu Hfind Hty vb v' res.
  destruct (vote_step _ _ _ vote_type _ _ _ _ Hid Hit Hu) as [Hres Hdoc].
  cbn zeta in Hres, Hdoc. fold res in Hres, Hdoc. unfold ledger in Hres, Hdoc.
  rewrite Hfind, decide_False in Hres, Hdoc by done. cbn in Hres, Hdoc.
  apply list_find_Some in Hfind as (Hi & Hu' & _).
  split; [done|]. eexists. split; [exact Hdoc|]. split_and!.
  - apply length_insert.
  - unfold set_type. rewrite Hu'. apply list_lookup_insert_eq.
    by eapply lookup_lt_Some.
  - intros j Hj. by apply list_lookup_insert_ne.
Qed.

(** In a voter record with one entry per user at most, an entry of a user
    is the one the search for this user returns. *)
Lemma list_find_the_entry u vb e :
  NoDup (v_user_id <$> vb) →
  e ∈ vb →
  v_user_id e = u →
  ∃ i, list_find (λ vote, v_user_id vote = u) vb = Some (i, e).
Proof.
  intros Hnd [j Hj]%list_elem_of_lookup Hu.
  destruct (list_find_elem_of (λ vote, v_user_id vote = u) vb e) as [[i e'] Hfind];
    [by eapply list_elem_of_lookup_2|done|].
  exists i. pose proof Hfind as (Hi & Hu' & _)%list_find_Some.
  assert (i = j) as ->.
  { apply (NoDup_lookup (v_user_id <$> vb) i j u); [done|..];
      rewrite list_lookup_fmap; [by rewrite Hi; cbn; rewrite Hu'|by rewrite Hj; cbn; rewrite Hu]. }
  rewrite Hj in Hi. by injection Hi as <-.
Qed.

(** C3. The voter record holds, as it always does, one entry per user at
    most.  When it contains an entry [e] of the acting user whose type
    differs from the requested one, the vote changes the type of this
    entry where it stands: at the position [i] of [e] the list now has the
    user with the requested type, it keeps its length and every other
    position keeps its entry; [votes] moves by +2 for [up] and by -2 for
    anything else. *)
Theorem vote_flip_entry session item_type item_id vote_type st oid item u e :
  ObjectId item_id = Some oid →
  docs (target item_type) st !! oid = Some item →
  acting_user ObjectId session = Some u →
  NoDup (v_user_id <$> get_voted_by item []) →
  e ∈ get_voted_by item [] →
  v_user_id e = u →
  v_type e ≠ vote_type →
  let vb := get_voted_by item [] in
  let v' := (get_votes item 0 + (if decide (vote_type = "up") then 2 else -2))%Z in
  let res := vote ObjectId session item_type item_id vote_type st in
  res.1 = Return (Resp (JVotes v') 200) ∧
  ∃ i vb', vb !! i = Some e ∧
    docs (target item_type) res.2 !! oid
    = Some (mkItem (Some v') (Some vb') (fields item)) ∧
    length vb' = length vb ∧
    vb' !! i = Some (mkVote u vote_type) ∧
    ∀ j, j ≠ i → vb' !! j = vb !! j.
Proof.
  intros Hid Hit Hu Hnd He Hue Hty vb v' res.
  destruct (list_find_the_entry u vb e Hnd He Hue) as [i Hfind].
  destruct (vote_flip _ _ _ vote_type _ _ _ _ _ _ Hid Hit Hu Hfind Hty)
    as (Hres & vb' & Hdoc & Hlen & Hi & Hothers).
  split; [done|]. exists i, vb'.
  apply list_find_Some in Hfind as (Hie & _ & _). done.
Qed.

(** C4. The same type cast twice in a row by a user who had no entry: the
    first vote moves the tally by +1 for [up] and by -1 otherwise and
    records the user; the second takes the user's entry out again, and the
    tally and the voter record are back to what they were before the first
    vote.  This holds for every type, [up] and [down] among them. *)
Theorem vote_twice session item_type item_id vote_type st oid item u :
  ObjectId item_id = Some oid →
  docs (target item_type) st !! oid = Some item →
  acting_user ObjectId session = Some u →
  u ∉ v_user_id <$> get_voted_by item [] →
  let c := target item_type in
  let v := get_votes item 0%Z in
  let vb := get_voted_by item [] in
  let v1 := (v + (if decide (vote_type = "up") then 1 else -1))%Z in
  let res1 := vote ObjectId session item_type item_id vote_type st in
  let res2 := vote ObjectId session item_type item_id vote_type res1.2 in
  res1.1 = Return (Resp (JVotes v1) 200) ∧
  docs c res1.2 !! oid
  = Some (mkItem (Some v1) (Some (vb ++ [mkVote u vote_type])) (fields item)) ∧
  res2.1 = Return (Resp (JVotes v) 200) ∧
  docs c res2.2 !! oid = Some (mkItem (Some v) (Some vb) (fields item)).
Proof.
  intros Hid Hit Hu Hnew c v vb v1 res1 res2.
  destruct (vote_step _ _ _ vote_type _ _ _ _ Hid Hit Hu) as [Hr1 Hd1].
  fold res1 c vb v in Hr1, Hd1. rewrite ledger_new in Hr1, Hd1 by done.
  cbn in Hr1, Hd1. fold v1 in Hr1, Hd1. split_and!; [done..| |].
  all: destruct (vote_step _ _ _ vote_type _ _ _ _ Hid Hd1 Hu) as [Hr2 Hd2];
    fold res2 in Hr2, Hd2; cbn in Hr2, Hd2; unfold ledger in Hr2, Hd2;
    rewrite list_find_snoc_new in Hr2, Hd2 by done;
    cbn in Hr2, Hd2; rewrite decide_True in Hr2, Hd2 by done;
    cbn in Hr2, Hd2.
  - rewrite Hr2. do 3 f_equal. subst v1. case_decide; lia.
  - fold c in Hd2. rewrite Hd2. f_equal. f_equal.
    + f_equal. subst v1. case_decide; lia.
    + f_equal. rewrite filter_app, filter_other_users by done.
      rewrite filter_cons_False by (cbn; tauto).
      by rewrite filter_nil, app_nil_r.
Qed.

(** C2. The scenario of two users [A] and [B] on a document as created:
    [A] votes up, [B] votes down, [A] votes down.  After each vote the
    tally returned and stored and the voter record are 1 with [(A, up)],
    then 0 with [(A, up); (B, down)], then -2 with [(A, down); (B, down)]. *)
Theorem vote_scenario sA sB item_type item_id st oid item A B :
  ObjectId item_id = Some oid →
  docs (target item_type) st !! oid = Some item →
  created item →
  acting_user ObjectId sA = Some A →
  acting_user ObjectId sB = Some B →
  A ≠ B →
  let c := target item_type in
  let res1 := vote ObjectId sA item_type item_id "up" st in
  let res2 := vote ObjectId sB item_type item_id "down" res1.2 in
  let res3 := vote ObjectId sA item_type item_id "down" res2.2 in
  res1.1 = Return (Resp (JVotes 1) 200) ∧
  docs c res1.2 !! oid
  = Some (mkItem (Some 1%Z) (Some [mkVote A "up"]) (fields item)) ∧
  res2.1 = Return (Resp (JVotes 0) 200) ∧
  docs c res2.2 !! oid
  = Some (mkItem (Some 0%Z) (Some [mkVote A "up"; mkVote B "down"]) (fields item)) ∧
  res3.1 = Return (Resp (JVotes (-2)) 200) ∧
  docs c res3.2 !! oid
  = Some (mkItem (Some (-2)%Z) (Some [mkVote A "down"; mkVote B "down"]) (fields item)).
Proof.
  intros Hid Hit [Hv Hvb] HA HB Hne c res1 res2 res3.
  destruct (vote_step _ _ _ "up" _ _ _ _ Hid Hit HA) as [Hr1 Hd1].
  fold res1 c in Hr1, Hd1. unfold get_votes, get_voted_by in Hr1, Hd1.
  rewrite Hv, Hvb in Hr1, Hd1. cbn in Hr1, Hd1.
  destruct (vote_step _ _ _ "down" _ _ _ _ Hid Hd1 HB) as [Hr2 Hd2].
  fold res2 c in Hr2, Hd2. unfold ledger in Hr2, Hd2. cbn in Hr2, Hd2.
  rewrite (decide_False (P:=A = B)) in Hr2, Hd2 by done. cbn in Hr2, Hd2.
  destruct (vote_step _ _ _ "down" _ _ _ _ Hid Hd2 HA) as [Hr3 Hd3].
  fold res3 c in Hr3, Hd3. unfold ledger in Hr3, Hd3. cbn in Hr3, Hd3.
  rewrite (decide_True (P:=A = A)) in Hr3, Hd3 by done. cbn in Hr3, Hd3.
  done.
Qed.

(** C1, as the code has it.  A type other than [up] moves the tally as
    [down] does in the case that applies: -1 when the user has no entry,
    +1 when the type of his first entry is the requested one (his entries
    are removed), -2 when it is another one (the entry takes the requested
    type).  The case is chosen by comparing the stored type with the
    requested string, which is also the string recorded.  Hence the tally
    is the one [down] gives when the user has no entry, or when the type
    of his first entry is neither the requested one nor [down]; the voter
    record then differs from that of [down] by the recorded string only. *)
Theorem vote_non_up session item_type item_id vote_type st oid item u :
  vote_type ≠ "up" →
  ObjectId item_id = Some oid →
  docs (target item_type) st !! oid = Some item →
  acting_user ObjectId session = Some u →
  let c := target item_type in
  let v := get_votes item 0%Z in
  let vb := get_voted_by item [] in
  let res := vote ObjectId session item_type item_id vote_type st in
  let res_down := vote ObjectId session item_type item_id "down" st in
  match list_find (λ vote, v_user_id vote = u) vb with
  | None =>
      res.1 = Return (Resp (JVotes (v - 1)) 200) ∧
      docs c res.2 !! oid
      = Some (mkItem (Some (v - 1)%Z) (Some (vb ++ [mkVote u vote_type])) (fields item)) ∧
      res_down.1 = res.1 ∧
      docs c res_down.2 !! oid
      = Some (mkItem (Some (v - 1)%Z) (Some (vb ++ [mkVote u "down"])) (fields item))
  | Some (i, e) =>
      if decide (v_type e = vote_type) then
        res.1 = Return (Resp (JVotes (v + 1)) 200) ∧
        docs c res.2 !! oid
        = Some (mkItem (Some (v + 1)%Z)
                  (Some (filter (λ vote, v_user_id vote ≠ u) vb)) (fields item))
      else
        res.1 = Return (Resp (JVotes (v - 2)) 200) ∧
        docs c res.2 !! oid
        = Some (mkItem (Some (v - 2)%Z)
                  (Some (<[i := mkVote u vote_type]> vb)) (fields item)) ∧
        (v_type e ≠ "down" →
         res_down.1 = res.1 ∧
         docs c res_down.2 !! oid
         = Some (mkItem (Some (v - 2)%Z)
                   (Some (<[i := mkVote u "down"]> vb)) (fields item)))
  end.
Proof.
  intros Hup Hid Hit Hu c v vb res res_down.
  destruct (vote_step _ _ _ vote_type _ _ _ _ Hid Hit Hu) as [Hr Hd].
  destruct (vote_step _ _ _ "down" _ _ _ _ Hid Hit Hu) as [Hrd Hdd].
  fold res c v vb in Hr, Hd. fold res_down c v vb in Hrd, Hdd.
  unfold ledger in Hr, Hd, Hrd, Hdd.
  destruct (decide (vote_type = "up")) as [|_]; [done|].
  destruct (list_find _ vb) as [[i e]|] eqn:Hfind.
  - apply list_find_Some in Hfind as (_ & Hu' & _).
    destruct (decide (v_type e = vote_type)) as [Hty|Hty].
    + cbn in Hr, Hd. replace (v - -1)%Z with (v + 1)%Z in Hr, Hd by lia. done.
    + cbn in Hr, Hd. replace (v + -2)%Z with (v - 2)%Z in Hr, Hd by lia.
      unfold set_type in Hd. rewrite Hu' in Hd. split_and!; [done..|].
      intros Hdown. destruct (decide (v_type e = "down")) as [|_]; [done|].
      cbn in Hrd, Hdd. replace (v + -2)%Z with (v - 2)%Z in Hrd, Hdd by lia.
      unfold set_type in Hdd. rewrite Hu' in Hdd. by rewrite Hr.
  - cbn in Hr, Hd, Hrd, Hdd.
    replace (v + -1)%Z with (v - 1)%Z in Hr, Hd, Hrd, Hdd by lia.
    by rewrite Hr.
Qed.

(** ** The invariant *)

Lemma tally_cons e vb : tally (e :: vb) = (weight e + tally vb)%Z.
Proof. reflexivity. Qed.

Lemma tally_app vb1 vb2 : tally (vb1 ++ vb2) = (tally vb1 + tally vb2)%Z.
Proof.
  induction vb1 as [|e vb1 IH]; [done|].
  rewrite <- app_comm_cons, !tally_cons, IH. lia.
Qed.

Lemma tally_insert vb i e e' :
  vb !! i = Some e →
  tally (<[i := e']> vb) = (tally vb - weight e + weight e')%Z.
Proof.
  revert i. induction vb as [|a vb IH]; intros [|i] Hi; try done.
  - injection Hi as ->. change (<[0 := e']> (e :: vb)) with (e' :: vb).
    rewrite !tally_cons. lia.
  - change (<[S i := e']> (a :: vb)) with (a :: <[i := e']> vb).
    rewrite !tally_cons, (IH i Hi). lia.
Qed.

Lemma tally_filter_user vb i e :
  NoDup (v_user_id <$> vb) →
  vb !! i = Some e →
  tally (filter (λ vote, v_user_id vote ≠ v_user_id e) vb)
  = (tally vb - weight e)%Z.
Proof.
  revert i. induction vb as [|a vb IH]; intros i Hnd Hi; [done|].
  rewrite fmap_cons, NoDup_cons in Hnd. destruct Hnd as [Ha Hnd].
  destruct i as [|i].
  - injection Hi as ->. rewrite filter_cons_False by (cbn; tauto).
    rewrite filter_other_users by done. rewrite tally_cons. lia.
  - assert (v_user_id a ≠ v_user_id e) as Hne.
    { intros Heq. apply Ha. rewrite Heq. apply list_elem_of_fmap.
      exists e. split; [done|]. by eapply list_elem_of_lookup_2. }
    rewrite filter_cons_True by done.
    rewrite !tally_cons, (IH i Hnd Hi). lia.
Qed.

Lemma NoDup_users_filter (P : Vote (Oid:=Oid) → Prop) `{∀ x, Decision (P x)} vb :
  NoDup (v_user_id <$> vb) → NoDup (v_user_id <$> filter P vb).
Proof.
  induction vb as [|a vb IH]; [done|].
  rewrite fmap_cons, NoDup_cons. intros [Ha Hnd].
  destruct (decide (P a)).
  - rewrite filter_cons_True by done. rewrite fmap_cons, NoDup_cons.
    split; [|by apply IH]. intros Hin. apply Ha.
    apply list_elem_of_fmap in Hin as (x & -> & Hx).
    apply list_elem_of_filter in Hx as [_ Hx].
    apply list_elem_of_fmap. by exists x.
  - rewrite filter_cons_False by done. by apply IH.
Qed.

Ltac by_cases := repeat (case_decide; try done); cbn; lia.

(** Lines 223-238 keep the invariant, for the types up and down. *)
Lemma ledger_consistent u vote_type vb v :
  vote_type = "up" ∨ vote_type = "down" →
  NoDup (v_user_id <$> vb) →
  Forall (λ vote, v_type vote = "up" ∨ v_type vote = "down") vb →
  v = tally vb →
  let r := ledger u vote_type vb v in
  NoDup (v_user_id <$> r.1) ∧
  Forall (λ vote, v_type vote = "up" ∨ v_type vote = "down") r.1 ∧
  r.2 = tally r.1.
Proof.
  intros Hty Hnd Hall -> r. subst r. unfold ledger.
  destruct (list_find _ vb) as [[i e]|] eqn:Hfind.
  - apply list_find_Some in Hfind as (Hi & <- & _).
    assert (v_type e = "up" ∨ v_type e = "down") as He.
    { rewrite Forall_forall in Hall. apply Hall.
      by eapply list_elem_of_lookup_2. }
    destruct (decide (v_type e = vote_type)) as [Heq|Hne]; cbn [fst snd].
    + split_and!.
      * by apply NoDup_users_filter.
      * rewrite Forall_forall in Hall |- *. intros x Hx. apply Hall.
        by apply list_elem_of_filter in Hx as [_ Hx].
      * rewrite (tally_filter_user vb i e) by done. unfold weight.
        rewrite Heq. destruct Hty as [-> | ->]; by_cases.
    + split_and!.
      * by rewrite list_fmap_insert, list_insert_id by by rewrite list_lookup_fmap, Hi.
      * by apply Forall_insert.
      * rewrite (tally_insert vb i e) by done. unfold weight, set_type. cbn.
        destruct Hty as [-> | ->], He as [He | He]; rewrite He in *; by_cases.
  - cbn [fst snd]. split_and!.
    + rewrite fmap_snoc. apply NoDup_app. split_and!; [done| |apply NoDup_singleton].
      intros x Hx ->%list_elem_of_singleton.
      by apply list_find_None_not_elem in Hfind.
    + apply Forall_app. split; [done|]. by apply Forall_singleton.
    + rewrite tally_app, tally_cons. unfold weight. cbn.
      destruct Hty as [-> | ->]; by_cases.
Qed.

(** A served request leaves a consistent document consistent. *)
Lemma serve_consistent c oid item r st :
  docs c st !! oid = Some item →
  consistent item →
  r_vote_type r = "up" ∨ r_vote_type r = "down" →
  ∃ item', docs c (serve ObjectId st r) !! oid = Some item' ∧
           consistent item' ∧ fields item' = fields item.
Proof.
  intros Hit Hcons Hty. unfold serve.
  destruct (vote_cases (r_session r) (r_item_type r) (r_item_id r)
              (r_vote_type r) st)
    as [[_ Hr]|[(oid0 & _ & _ & Hr)|[(oid0 & item0 & _ & _ & _ & Hr)
       |(oid0 & item0 & u & _ & Hit0 & _ & Hr)]]];
    rewrite Hr; cbn.
  - by exists item.
  - exists item. by destruct c.
  - exists item. by destruct c.
  - rewrite docs_voted. case_decide as Hd.
    + destruct Hd as [-> ->]. rewrite Hit0 in Hit. injection Hit as ->.
      rewrite Hit0. cbn. eexists. split; [done|]. split; [|done].
      destruct Hcons as (Hnd & Hall & Hv).
      by apply ledger_consistent.
    + by exists item.
Qed.

Lemma serve_all_consistent c oid item rs st :
  docs c st !! oid = Some item →
  consistent item →
  Forall (λ r, r_vote_type r = "up" ∨ r_vote_type r = "down") rs →
  ∃ item', docs c (serve_all ObjectId rs st) !! oid = Some item' ∧
           consistent item' ∧ fields item' = fields item.
Proof.
  revert st item. induction rs as [|r rs IH]; intros st item Hit Hcons Hrs.
  - by exists item.
  - apply Forall_cons in Hrs as [Hr Hrs].
    destruct (serve_consistent c oid item r st Hit Hcons Hr)
      as (item1 & Hit1 & Hcons1 & Hf1).
    destruct (IH _ _ Hit1 Hcons1 Hrs) as (item' & Hit' & Hcons' & Hf').
    exists item'. split_and!; [done..|]. by rewrite Hf'.
Qed.

Lemma created_consistent item : created item → consistent item.
Proof.
  intros [Hv Hvb]. unfold consistent, get_votes, get_voted_by.
  rewrite Hv, Hvb. cbn. split_and!; [constructor|constructor|done].
Qed.

(** C6. A document created with [votes] 0 and [voted_by] empty, then any
    requests to the vote endpoint served one after the other, by whatever
    users and on whatever documents, each of type up or down: after each
    request (after the first [n], for every [n]) the document is still
    there, its [voted_by] has one entry per user at most, and its [votes]
    is the number of its up entries minus the number of its down entries. *)
Theorem votes_stay_consistent c oid item rs st :
  docs c st !! oid = Some item →
  created item →
  Forall (λ r, r_vote_type r = "up" ∨ r_vote_type r = "down") rs →
  ∀ n, ∃ item',
    docs c (serve_all ObjectId (take n rs) st) !! oid = Some item' ∧
    NoDup (v_user_id <$> get_voted_by item' []) ∧
    get_votes item' 0%Z = tally (get_voted_by item' []).
Proof.
  intros Hit Hnew Hrs n.
  destruct (serve_all_consistent c oid item (take n rs) st Hit)
    as (item' & Hit' & (Hnd & _ & Hv) & _);
    [by apply created_consistent|by apply Forall_take|].
  by exists item'.
Qed.

(** ** What a vote answers, and what it leaves alone *)

(** X1. No exception leaves the view: it always returns a response, which
    is the tally with status 200, [Item not found] with status 404, or
    [Voting failed] with status 500. *)
Theorem vote_always_answers session item_type item_id vote_type st :
  ∃ resp, (vote ObjectId session item_type item_id vote_type st).1 = Return resp ∧
    (resp = Resp (JError "Voting failed") 500 ∨
     resp = Resp (JError "Item not found") 404 ∨
     ∃ n, resp = Resp (JVotes n) 200).
Proof.
  destruct (vote_cases session item_type item_id vote_type st)
    as [[_ Hr]|[(oid & _ & _ & Hr)|[(oid & item & _ & _ & _ & Hr)
       |(oid & item & u & _ & _ & _ & Hr)]]];
    rewrite Hr; eexists; (split; [reflexivity|]); eauto.
Qed.

(** X2. The acting user is looked at after the document: when the document
    exists but the session has no ['user_id'], or one that is no object
    id, the view answers [Voting failed] with status 500 after its
    [find_one], and writes nothing. *)
Theorem vote_bad_session session item_type item_id vote_type st oid item :
  ObjectId item_id = Some oid →
  docs (target item_type) st !! oid = Some item →
  acting_user ObjectId session = None →
  let res := vote ObjectId session item_type item_id vote_type st in
  res.1 = Return (Resp (JError "Voting failed") 500) ∧
  ops res.2 = ops st ++ [FindOne (target item_type) oid] ∧
  questions res.2 = questions st ∧
  answers res.2 = answers st ∧
  users res.2 = users st.
Proof.
  intros Hid Hit Hu res. subst res.
  rewrite (vote_no_user _ _ _ _ _ _ _ Hid Hit Hu). done.
Qed.

(** X6. A vote neither inserts nor deletes a document, and changes the
    fields other than [votes] and [voted_by] of none: in both collections
    every id holds a document after the vote exactly when it did before,
    with the same other fields. *)
Theorem vote_keeps_documents session item_type item_id vote_type st c oid :
  let res := vote ObjectId session item_type item_id vote_type st in
  fields <$> docs c res.2 !! oid = fields <$> docs c st !! oid.
Proof.
  intros res.
  destruct (vote_cases session item_type item_id vote_type st)
    as [[_ Hr]|[(oid0 & _ & _ & Hr)|[(oid0 & item & _ & _ & _ & Hr)
       |(oid0 & item & u & _ & Hit & _ & Hr)]]];
    fold res in Hr; rewrite Hr; cbn; try (by destruct c).
  rewrite docs_voted. case_decide as Hd; [|done].
  destruct Hd as [-> ->]. by rewrite Hit.
Qed.

(** ** The cases of a vote, on any voter record *)

Lemma filter_insert_same (P : Vote (Oid:=Oid) → Prop) `{∀ x, Decision (P x)}
    vb i e e' :
  vb !! i = Some e → ¬ P e → ¬ P e' →
  filter P (<[i := e']> vb) = filter P vb.
Proof.
  revert i. induction vb as [|a vb IH]; intros [|i] Hi He He'; try done.
  - injection Hi as ->. change (<[0 := e']> (e :: vb)) with (e' :: vb).
    by rewrite !filter_cons_False.
  - change (<[S i := e']> (a :: vb)) with (a :: <[i := e']> vb).
    rewrite !filter_cons. by rewrite (IH i).
Qed.

Lemma list_find_insert_first (P : Vote (Oid:=Oid) → Prop) `{∀ x, Decision (P x)}
    vb i e e' :
  list_find P vb = Some (i, e) → P e' →
  list_find P (<[i := e']> vb) = Some (i, e').
Proof.
  intros (Hi & _ & Hbefore)%list_find_Some He'. apply list_find_Some.
  split_and!; [|done|].
  - apply list_lookup_insert_eq. by eapply lookup_lt_Some.
  - intros j y Hj Hlt. rewrite list_lookup_insert_ne in Hj by lia.
    by eapply Hbefore.
Qed.

(** X3. When the first entry of the acting user has the requested type,
    the vote is withdrawn: every entry of this user leaves [voted_by], the
    entries of the others stay as they are and in their order, and [votes]
    moves by -1 for [up] and by +1 for anything else. *)
Theorem vote_same_type_withdraws session item_type item_id vote_type st oid
    item u i e :
  ObjectId item_id = Some oid →
  docs (target item_type) st !! oid = Some item →
  acting_user ObjectId session = Some u →
  list_find (λ vote, v_user_id vote = u) (get_voted_by item []) = Some (i, e) →
  v_type e = vote_type →
  let vb := get_voted_by item [] in
  let v' := (get_votes item 0 - (if decide (vote_type = "up") then 1 else -1))%Z in
  let vb' := filter (λ vote, v_user_id vote ≠ u) vb in
  let res := vote ObjectId session item_type item_id vote_type st in
  res.1 = Return (Resp (JVotes v') 200) ∧
  docs (target item_type) res.2 !! oid
  = Some (mkItem (Some v') (Some vb') (fields item)) ∧
  u ∉ v_user_id <$> vb'.
Proof.
  intros Hid Hit Hu Hfind Hty vb v' vb' res.
  destruct (vote_step _ _ _ vote_type _ _ _ _ Hid Hit Hu) as [Hres Hdoc].
  cbn zeta in Hres, Hdoc. fold res in Hres, Hdoc. unfold ledger in Hres, Hdoc.
  rewrite Hfind, decide_True in Hres, Hdoc by done.
  split_and!; [done..|].
  intros (x & Hx & [Hne _]%list_elem_of_filter)%list_elem_of_fmap. done.
Qed.

(** X4. A vote that goes through touches the entries of the acting user
    only: the entries of all other users are the same, in the same order,
    before and after. *)
Theorem vote_keeps_other_users session item_type item_id vote_type st oid
    item u :
  ObjectId item_id = Some oid →
  docs (target item_type) st !! oid = Some item →
  acting_user ObjectId session = Some u →
  let res := vote ObjectId session item_type item_id vote_type st in
  ∃ item', docs (target item_type) res.2 !! oid = Some item' ∧
    filter (λ vote, v_user_id vote ≠ u) (get_voted_by item' [])
    = filter (λ vote, v_user_id vote ≠ u) (get_voted_by item []).
Proof.
  intros Hid Hit Hu res.
  destruct (vote_step _ _ _ vote_type _ _ _ _ Hid Hit Hu) as [_ Hdoc].
  cbn zeta in Hdoc. fold res in Hdoc. eexists. split; [exact Hdoc|].
  unfold get_voted_by at 1. cbn. unfold ledger.
  destruct (list_find _ _) as [[i e]|] eqn:Hfind.
  - apply list_find_Some in Hfind as (Hi & He & _).
    case_decide; cbn.
    + apply list_filter_filter_l. tauto.
    + apply (filter_insert_same _ _ _ e); [done|..]; cbn; tauto.
  - cbn. rewrite filter_app, filter_cons_False by (cbn; tauto).
    by rewrite filter_nil, app_nil_r.
Qed.

(** X5. A document that has neither a [votes] nor a [voted_by] key is
    read as one with tally 0 and no voter: the first vote on it writes both
    keys, [votes] 1 for [up] and -1 for anything else, and [voted_by] with
    the one entry of the acting user. *)
Theorem vote_on_bare_document session item_type item_id vote_type st oid
    item u :
  ObjectId item_id = Some oid →
  docs (target item_type) st !! oid = Some item →
  acting_user ObjectId session = Some u →
  votes item = None →
  voted_by item = None →
  let v' := if decide (vote_type = "up") then 1%Z else (-1)%Z in
  let res := vote ObjectId session item_type item_id vote_type st in
  res.1 = Return (Resp (JVotes v') 200) ∧
  docs (target item_type) res.2 !! oid
  = Some (mkItem (Some v') (Some [mkVote u vote_type]) (fields item)).
Proof.
  intros Hid Hit Hu Hv Hvb v' res.
  destruct (vote_step _ _ _ vote_type _ _ _ _ Hid Hit Hu) as [Hres Hdoc].
  cbn zeta in Hres, Hdoc. fold res in Hres, Hdoc.
  unfold get_votes, get_voted_by in Hres, Hdoc.
  rewrite Hv, Hvb in Hres, Hdoc. cbn in Hres, Hdoc. done.
Qed.

(** X8. A vote that goes through never leaves the tally where it was: the
    tally returned differs from the one read by one or by two. *)
Theorem vote_moves_tally session item_type item_id vote_type st oid item u :
  ObjectId item_id = Some oid →
  docs (target item_type) st !! oid = Some item →
  acting_user ObjectId session = Some u →
  ∃ n, (vote ObjectId session item_type item_id vote_type st).1
       = Return (Resp (JVotes n) 200) ∧
       (1 ≤ Z.abs (n - get_votes item 0) ≤ 2)%Z.
Proof.
  intros Hid Hit Hu.
  destruct (vote_step _ _ _ vote_type _ _ _ _ Hid Hit Hu) as [Hres _].
  cbn zeta in Hres. eexists. split; [exact Hres|]. unfold ledger.
  destruct (list_find _ _) as [[i e]|]; repeat case_decide; cbn; lia.
Qed.

(** X9. What the voter record says of the acting user after a vote that
    goes through: nothing when his first entry had the requested type;
    otherwise an entry of the requested type, at the place of his first
    entry when he had one and at the end when he had none. *)
Theorem vote_records_intent session item_type item_id vote_type st oid item u :
  ObjectId item_id = Some oid →
  docs (target item_type) st !! oid = Some item →
  acting_user ObjectId session = Some u →
  let vb := get_voted_by item [] in
  let res := vote ObjectId session item_type item_id vote_type st in
  ∃ item', docs (target item_type) res.2 !! oid = Some item' ∧
    list_find (λ vote, v_user_id vote = u) (get_voted_by item' [])
    = match list_find (λ vote, v_user_id vote = u) vb with
      | Some (i, e) =>
          if decide (v_type e = vote_type) then None
          else Some (i, mkVote u vote_type)
      | None => Some (length vb, mkVote u vote_type)
      end.
Proof.
  intros Hid Hit Hu vb res.
  destruct (vote_step _ _ _ vote_type _ _ _ _ Hid Hit Hu) as [_ Hdoc].
  cbn zeta in Hdoc. fold res vb in Hdoc. eexists. split; [exact Hdoc|].
  unfold get_voted_by at 1. cbn. unfold ledger.
  destruct (list_find _ vb) as [[i e]|] eqn:Hfind.
  - pose proof Hfind as (_ & He & _)%list_find_Some.
    case_decide; cbn.
    + apply list_find_None, Forall_forall.
      intros x [Hx _]%list_elem_of_filter. done.
    + unfold set_type. rewrite He.
      eapply list_find_insert_first; [exact Hfind|done].
  - cbn. apply list_find_snoc_new. by apply list_find_None_not_elem.
Qed.

(** ** Votes in a row *)

(** X10. A change of mind costs nothing.  A user with no entry who votes
    one way and then the other, one of the two being [up], leaves the
    document exactly as if he had cast the second vote alone, and gets the
    same answer to it. *)
Theorem vote_change_of_mind session item_type item_id d1 d2 st oid item u :
  ObjectId item_id = Some oid →
  docs (target item_type) st !! oid = Some item →
  acting_user ObjectId session = Some u →
  u ∉ v_user_id <$> get_voted_by item [] →
  d1 ≠ d2 →
  d1 = "up" ∨ d2 = "up" →
  let c := target item_type in
  let res1 := vote ObjectId session item_type item_id d1 st in
  let res2 := vote ObjectId session item_type item_id d2 res1.2 in
  let alone := vote ObjectId session item_type item_id d2 st in
  res2.1 = alone.1 ∧
  docs c res2.2 !! oid = docs c alone.2 !! oid ∧
  docs c alone.2 !! oid
  = Some (mkItem (Some (get_votes item 0 + (if decide (d2 = "up") then 1 else -1))%Z)
            (Some (get_voted_by item [] ++ [mkVote u d2])) (fields item)).
Proof.
  intros Hid Hit Hu Hnew Hne Hup c res1 res2 alone.
  destruct (vote_step _ _ _ d1 _ _ _ _ Hid Hit Hu) as [_ Hd1].
  destruct (vote_step _ _ _ d2 _ _ _ _ Hid Hit Hu) as [Hra Hda].
  cbn zeta in Hd1, Hra, Hda. fold res1 c in Hd1. fold alone c in Hra, Hda.
  rewrite ledger_new in Hd1, Hra, Hda by done. cbn in Hd1, Hra, Hda.
  destruct (vote_step _ _ _ d2 _ _ _ _ Hid Hd1 Hu) as [Hr2 Hd2].
  cbn zeta in Hr2, Hd2. fold res2 c in Hr2, Hd2. cbn in Hr2, Hd2.
  unfold ledger in Hr2, Hd2.
  rewrite list_find_snoc_new in Hr2, Hd2 by done. cbn in Hr2, Hd2.
  rewrite decide_False in Hr2, Hd2 by done. cbn in Hr2, Hd2.
  replace (length (get_voted_by item [])) with (length (get_voted_by item []) + 0)
    in Hd2 by lia.
  rewrite insert_app_r in Hd2. cbn in Hd2.
  assert ((get_votes item 0 + (if decide (d1 = "up") then 1 else -1)
           + (if decide (d2 = "up") then 2 else -2))%Z
          = (get_votes item 0 + (if decide (d2 = "up") then 1 else -1))%Z) as Hv.
  { destruct Hup as [-> | ->]; repeat case_decide; try done; lia. }
  rewrite Hv in Hr2, Hd2. rewrite Hr2, Hra, Hd2, Hda. done.
Qed.

(** X11. Changing a vote and changing it back restores the document.  A
    user whose first entry has a type [t] votes another type and then [t]
    again, one of the two types being [up]: [votes] and [voted_by] are
    then what they were. *)
Theorem vote_flip_back session item_type item_id vote_type st oid item u i e :
  ObjectId item_id = Some oid →
  docs (target item_type) st !! oid = Some item →
  acting_user ObjectId session = Some u →
  list_find (λ vote, v_user_id vote = u) (get_voted_by item []) = Some (i, e) →
  v_type e ≠ vote_type →
  v_type e = "up" ∨ vote_type = "up" →
  let c := target item_type in
  let res1 := vote ObjectId session item_type item_id vote_type st in
  let res2 := vote ObjectId session item_type item_id (v_type e) res1.2 in
  res2.1 = Return (Resp (JVotes (get_votes item 0)) 200) ∧
  docs c res2.2 !! oid
  = Some (mkItem (Some (get_votes item 0)) (Some (get_voted_by item []))
            (fields item)).
Proof.
  intros Hid Hit Hu Hfind Hty Hup c res1 res2.
  destruct (vote_step _ _ _ vote_type _ _ _ _ Hid Hit Hu) as [_ Hd1].
  cbn zeta in Hd1. fold res1 c in Hd1. unfold ledger in Hd1.
  rewrite Hfind, decide_False in Hd1 by done. cbn in Hd1.
  destruct (vote_step _ _ _ (v_type e) _ _ _ _ Hid Hd1 Hu) as [Hr2 Hd2].
  cbn zeta in Hr2, Hd2. fold res2 c in Hr2, Hd2. cbn in Hr2, Hd2.
  unfold ledger in Hr2, Hd2.
  pose proof Hfind as (Hi & He & _)%list_find_Some.
  rewrite (list_find_insert_first _ _ _ _ (set_type e vote_type) Hfind)
    in Hr2, Hd2 by done.
  cbn in Hr2, Hd2. rewrite decide_False in Hr2, Hd2 by done. cbn in Hr2, Hd2.
  rewrite list_insert_insert_eq in Hd2.
  replace (set_type (set_type e vote_type) (v_type e)) with e in Hd2
    by by destruct e.
  rewrite list_insert_id in Hd2 by done.
  assert ((get_votes item 0 + (if decide (vote_type = "up") then 2 else -2)
           + (if decide (v_type e = "up") then 2 else -2))%Z
          = get_votes item 0) as Hv.
  { destruct Hup as [Hup | Hup]; rewrite Hup in *;
      repeat case_decide; try done; lia. }
  rewrite Hv in Hr2, Hd2. done.
Qed.

(** One entry per user at most: lines 223-238 keep it for every type. *)
Lemma ledger_NoDup u vote_type vb v :
  NoDup (v_user_id <$> vb) → NoDup (v_user_id <$> (ledger u vote_type vb v).1).
Proof.
  intros Hnd. unfold ledger.
  destruct (list_find _ vb) as [[i e]|] eqn:Hfind.
  - apply list_find_Some in Hfind as (Hi & <- & _). case_decide; cbn.
    + by apply NoDup_users_filter.
    + by rewrite list_fmap_insert, list_insert_id by by rewrite list_lookup_fmap, Hi.
  - cbn. rewrite fmap_snoc. apply NoDup_app. split_and!; [done| |apply NoDup_singleton].
    intros x Hx ->%list_elem_of_singleton.
    by apply list_find_None_not_elem in Hfind.
Qed.

Lemma serve_NoDup c oid item r st :
  docs c st !! oid = Some item →
  NoDup (v_user_id <$> get_voted_by item []) →
  ∃ item', docs c (serve ObjectId st r) !! oid = Some item' ∧
           NoDup (v_user_id <$> get_voted_by item' []).
Proof.
  intros Hit Hnd. unfold serve.
  destruct (vote_cases (r_session r) (r_item_type r) (r_item_id r)
              (r_vote_type r) st)
    as [[_ Hr]|[(oid0 & _ & _ & Hr)|[(oid0 & item0 & _ & _ & _ & Hr)
       |(oid0 & item0 & u & _ & Hit0 & _ & Hr)]]];
    rewrite Hr; cbn.
  - by exists item.
  - exists item. by destruct c.
  - exists item. by destruct c.
  - rewrite docs_voted. case_decide as Hd; [|by exists item].
    destruct Hd as [-> ->]. rewrite Hit0 in Hit. injection Hit as ->.
    rewrite Hit0. cbn. eexists. split; [done|]. by apply ledger_NoDup.
Qed.

(** X13. Whatever requests are served, of whatever types ([sideways] as
    well as [up] and [down]), by whatever users and in whatever sessions, a
    voter record with one entry per user at most keeps one entry per user
    at most, and the document stays in its collection. *)
Theorem votes_keep_one_entry_per_user c oid item rs st :
  docs c st !! oid = Some item →
  NoDup (v_user_id <$> get_voted_by item []) →
  ∃ item', docs c (serve_all ObjectId rs st) !! oid = Some item' ∧
           NoDup (v_user_id <$> get_voted_by item' []).
Proof.
  revert st item. induction rs as [|r rs IH]; intros st item Hit Hnd.
  - by exists item.
  - destruct (serve_NoDup c oid item r st Hit Hnd) as (item1 & Hit1 & Hnd1).
    exact (IH _ _ Hit1 Hnd1).
Qed.

(** ** Two users *)

Lemma list_find_snd_cons (P : Vote (Oid:=Oid) → Prop) `{∀ x, Decision (P x)} a vb :
  ¬ P a → snd <$> list_find P (a :: vb) = snd <$> list_find P vb.
Proof.
  intros Ha. cbn. rewrite decide_False by done.
  by destruct (list_find P vb) as [[j y]|].
Qed.

Lemma list_find_snd_filter (P Q : Vote (Oid:=Oid) → Prop)
    `{∀ x, Decision (P x)} `{∀ x, Decision (Q x)} vb :
  (∀ x, P x → Q x) →
  snd <$> list_find P (filter Q vb) = snd <$> list_find P vb.
Proof.
  intros HPQ. induction vb as [|a vb IH]; [done|].
  destruct (decide (Q a)) as [Hq|Hq].
  - rewrite filter_cons_True by done. destruct (decide (P a)) as [Hp|Hp].
    + cbn. by rewrite !decide_True.
    + by rewrite !list_find_snd_cons.
  - rewrite filter_cons_False by done.
    rewrite (list_find_snd_cons P a) by (intros Hp; by apply Hq, HPQ). done.
Qed.

Lemma list_find_snd_insert (P : Vote (Oid:=Oid) → Prop) `{∀ x, Decision (P x)}
    vb i e e' :
  vb !! i = Some e → ¬ P e → ¬ P e' →
  snd <$> list_find P (<[i := e']> vb) = snd <$> list_find P vb.
Proof.
  revert i. induction vb as [|a vb IH]; intros [|i] Hi He He'; try done.
  - injection Hi as ->. change (<[0 := e']> (e :: vb)) with (e' :: vb).
    by rewrite !list_find_snd_cons.
  - change (<[S i := e']> (a :: vb)) with (a :: <[i := e']> vb).
    destruct (decide (P a)) as [Hp|Hp].
    + cbn. by rewrite !decide_True.
    + rewrite !list_find_snd_cons by done. by apply IH.
Qed.

Lemma list_find_snd_snoc (P : Vote (Oid:=Oid) → Prop) `{∀ x, Decision (P x)} vb e :
  ¬ P e → snd <$> list_find P (vb ++ [e]) = snd <$> list_find P vb.
Proof.
  intros He. induction vb as [|a vb IH].
  - cbn. by rewrite decide_False.
  - rewrite <- app_comm_cons. destruct (decide (P a)) as [Hp|Hp].
    + cbn. by rewrite !decide_True.
    + by rewrite !list_find_snd_cons.
Qed.

(** The vote of a user leaves the first entry of any other user as it is. *)
Lemma ledger_other_first A B vote_type vb v :
  A ≠ B →
  snd <$> list_find (λ vote, v_user_id vote = A) (ledger B vote_type vb v).1
  = snd <$> list_find (λ vote, v_user_id vote = A) vb.
Proof.
  intros Hne. unfold ledger.
  destruct (list_find (λ vote, v_user_id vote = B) vb) as [[i e]|] eqn:Hfind.
  - apply list_find_Some in Hfind as (Hi & He & _). case_decide; cbn.
    + apply list_find_snd_filter. intros x ->. done.
    + apply (list_find_snd_insert _ _ _ e); [done|..]; cbn; congruence.
  - cbn. apply list_find_snd_snoc. cbn. congruence.
Qed.

(** How far a vote moves the tally depends on the first entry of the user
    and on nothing else. *)
Lemma ledger_move u vote_type vb vb' v v' :
  snd <$> list_find (λ vote, v_user_id vote = u) vb
  = snd <$> list_find (λ vote, v_user_id vote = u) vb' →
  ((ledger u vote_type vb v).2 - v = (ledger u vote_type vb' v').2 - v')%Z.
Proof.
  intros Heq. unfold ledger.
  destruct (list_find _ vb) as [[i e]|], (list_find _ vb') as [[i' e']|];
    cbn in Heq; try discriminate.
  - injection Heq as ->. case_decide; cbn; lia.
  - cbn. lia.
Qed.

(** X14. The votes of two different users on the same document commute on
    the tally: whichever of the two is served first, the second one is
    answered with the same tally. *)
Theorem votes_of_two_users_commute sA sB item_type item_id dA dB st oid item A B :
  ObjectId item_id = Some oid →
  docs (target item_type) st !! oid = Some item →
  acting_user ObjectId sA = Some A →
  acting_user ObjectId sB = Some B →
  A ≠ B →
  let resA := vote ObjectId sA item_type item_id dA st in
  let resAB := vote ObjectId sB item_type item_id dB resA.2 in
  let resB := vote ObjectId sB item_type item_id dB st in
  let resBA := vote ObjectId sA item_type item_id dA resB.2 in
  resAB.1 = resBA.1 ∧ ∃ n, resAB.1 = Return (Resp (JVotes n) 200).
Proof.
  intros Hid Hit HA HB Hne resA resAB resB resBA.
  destruct (vote_step _ _ _ dA _ _ _ _ Hid Hit HA) as [_ HdA].
  destruct (vote_step _ _ _ dB _ _ _ _ Hid Hit HB) as [_ HdB].
  cbn zeta in HdA, HdB. fold resA in HdA. fold resB in HdB.
  destruct (vote_step _ _ _ dB _ _ _ _ Hid HdA HB) as [HrAB _].
  destruct (vote_step _ _ _ dA _ _ _ _ Hid HdB HA) as [HrBA _].
  cbn zeta in HrAB, HrBA. fold resAB in HrAB. fold resBA in HrBA.
  cbn in HrAB, HrBA. rewrite HrAB, HrBA. split; [|by eexists].
  do 3 f_equal.
  set (vb := get_voted_by item []) in *. set (v := get_votes item 0%Z) in *.
  pose proof (ledger_move B dB (ledger A dA vb v).1 vb (ledger A dA vb v).2 v
                (ledger_other_first B A dA vb v (not_eq_sym Hne))) as H1.
  pose proof (ledger_move A dA (ledger B dB vb v).1 vb (ledger B dB vb v).2 v
                (ledger_other_first A B dB vb v Hne)) as H2.
  lia.
Qed.

(** ** Behind [login_required] *)

(** X12. The registered view redirects to the login page exactly when the
    session has no ['user_id'], and then neither reads nor writes the
    store; with a ['user_id'] in the session it is the view itself. *)
Theorem vote_view_login session item_type item_id vote_type st :
  let res := vote_view ObjectId session item_type item_id vote_type st in
  ((∃ endpoint, res.1 = Return (RedirectTo endpoint)) ↔ session !! "user_id" = None) ∧
  (session !! "user_id" = None → res = (Return (RedirectTo "login"), st)) ∧
  (is_Some (session !! "user_id") →
   res = vote ObjectId session item_type item_id vote_type st).
Proof.
  intros res. subst res. unfold vote_view, login_required.
  destruct (session !! "user_id") as [uid|] eqn:Hs.
  - split_and!; [|done|done]. split; [|done]. intros [ep Hep].
    destruct (vote_cases session item_type item_id vote_type st)
      as [[_ Hr]|[(oid & _ & _ & Hr)|[(oid & item & _ & _ & _ & Hr)
         |(oid & item & u & _ & _ & _ & Hr)]]];
      rewrite Hr in Hep; discriminate.
  - split_and!; [|done|by intros [? ?]]. split; [done|]. by eexists.
Qed.

(** X19. After [logout], from whatever session (logged in or not), a
    request to the vote endpoint is redirected to the login page and
    neither reads nor writes the store; the other keys of the session are
    kept. *)
Theorem logout_then_vote session item_type item_id vote_type st :
  let session' := (logout session).1.1 in
  (logout session).2 = RedirectTo "index" ∧
  vote_view ObjectId session' item_type item_id vote_type st
  = (Return (RedirectTo "login"), st) ∧
  ∀ k, k ≠ "user_id" → session' !! k = session !! k.
Proof.
  cbn. split_and!; [done| |].
  - unfold vote_view, login_required. by rewrite lookup_delete_eq.
  - intros k Hk. by rewrite lookup_delete_ne.
Qed.

End Properties.

(** * The properties at work on the forum of two users *)

(** An id that is no object id: 500 and an untouched store. *)
Lemma vote_invalid_item_id_witness :
  hex_ObjectId "xyz" = None ∧
  vote hex_ObjectId (as_user alice) "question" "xyz" "up" (forum 0 [])
  = (Return (Resp (JError "Voting failed") 500), forum 0 []) ∧
  vote_view hex_ObjectId (as_user alice) "question" "xyz" "up" (forum 0 [])
  = (Return (Resp (JError "Voting failed") 500), forum 0 []).
Proof.
  split; [reflexivity|].
  destruct (vote_invalid_item_id hex_ObjectId (as_user alice) "question" "xyz"
              "up" (forum 0 []) eq_refl) as [Hbody Hview].
  split; [exact Hbody|]. apply Hview. exists alice. reflexivity.
Defined.

(** The id of the answer looked up among the questions: 404. *)
Lemma vote_item_not_found_witness :
  let res := vote hex_ObjectId (as_user alice) "question" a1 "up" (forum 0 []) in
  res.1 = Return (Resp (JError "Item not found") 404) ∧
  ops res.2 = [FindOne questions_collection a1] ∧
  questions res.2 = questions (forum 0 []) ∧
  answers res.2 = answers (forum 0 []) ∧
  users res.2 = users (forum 0 []).
Proof.
  apply (vote_item_not_found hex_ObjectId (as_user alice) "question" a1 "up"
           (forum 0 []) a1); reflexivity.
Defined.

(** [Question], with a capital, is not [question]: the answer [a1] is
    looked up and written, in the answers. *)
Lemma vote_other_item_type_witness :
  let st := forum 0 [] in
  let res := vote hex_ObjectId (as_user alice) "Question" a1 "up" st in
  res = vote hex_ObjectId (as_user alice) "answer" a1 "up" st ∧
  questions res.2 = questions st ∧
  res.1 = Return (Resp (JVotes 1) 200) ∧
  ops res.2 = [FindOne answers_collection a1;
               UpdateOne answers_collection a1 1 [up alice]] ∧
  answers res.2 !! a1
  = Some (mkItem (Some 1%Z) (Some [up alice]) "Click the arrow.").
Proof.
  destruct (vote_other_item_type hex_ObjectId (as_user alice) "Question" a1 "up"
              (forum 0 []))
    as (Heq & _ & Hq & Hans); [discriminate|].
  split_and!; [exact Heq|exact Hq|..]; apply (Hans a1 eq_refl).
Defined.

Lemma vote_success_effects_witness :
  let st := forum 0 [] in
  let res := vote hex_ObjectId (as_user alice) "question" q1 "up" st in
  ∃ oid item n vb,
    hex_ObjectId q1 = Some oid ∧
    docs questions_collection st !! oid = Some item ∧
    JVotes 1 = JVotes n ∧
    ops res.2 = ops st ++ [FindOne questions_collection oid;
                           UpdateOne questions_collection oid n vb] ∧
    docs questions_collection res.2 !! oid
    = Some (mkItem (Some n) (Some vb) (fields item)) ∧
    (∀ c' oid', (c', oid') ≠ (questions_collection, oid) →
                docs c' res.2 !! oid' = docs c' st !! oid') ∧
    users res.2 = users st.
Proof.
  apply (vote_success_effects hex_ObjectId (as_user alice) "question" q1 "up"
           (forum 0 []) (JVotes 1)).
  vm_compute. reflexivity.
Defined.

Lemma vote_new_witness :
  let res := vote hex_ObjectId (as_user bob) "question" q1 "down" (forum 1 [up alice]) in
  res.1 = Return (Resp (JVotes 0) 200) ∧
  docs questions_collection res.2 !! q1
  = Some (mkItem (Some 0%Z) (Some [up alice; down bob]) "How do I vote?") ∧
  ops res.2 = [FindOne questions_collection q1;
               UpdateOne questions_collection q1 0 [up alice; down bob]].
Proof.
  apply (vote_new hex_ObjectId (as_user bob) "question" q1 "down"
           (forum 1 [up alice]) q1
           (mkItem (Some 1%Z) (Some [up alice]) "How do I vote?") bob);
    [reflexivity..|].
  vm_compute. intros Hin. inversion Hin as [|? ? ? Hin']; inversion Hin'.
Defined.

(** Alice, who voted up, votes down: her entry changes where it stands. *)
Lemma vote_flip_entry_witness :
  let vb := [up alice; down bob] in
  let res := vote hex_ObjectId (as_user alice) "question" q1 "down" (forum 0 vb) in
  res.1 = Return (Resp (JVotes (-2)) 200) ∧
  ∃ i vb', vb !! i = Some (up alice) ∧
    docs questions_collection res.2 !! q1
    = Some (mkItem (Some (-2)%Z) (Some vb') "How do I vote?") ∧
    length vb' = length vb ∧
    vb' !! i = Some (down alice) ∧
    ∀ j, j ≠ i → vb' !! j = vb !! j.
Proof.
  apply (vote_flip_entry hex_ObjectId (as_user alice) "question" q1 "down"
           (forum 0 [up alice; down bob]) q1
           (mkItem (Some 0%Z) (Some [up alice; down bob]) "How do I vote?")
           alice (up alice));
    [reflexivity|reflexivity|reflexivity| | |reflexivity|discriminate].
  - cbn. apply NoDup_cons. split; [|apply NoDup_singleton].
    rewrite not_elem_of_cons. split; [discriminate|apply not_elem_of_nil].
  - apply list_elem_of_here.
Defined.

Lemma vote_twice_witness :
  let res1 := vote hex_ObjectId (as_user bob) "answer" a1 "up" (forum 1 [up alice]) in
  let res2 := vote hex_ObjectId (as_user bob) "answer" a1 "up" res1.2 in
  res1.1 = Return (Resp (JVotes 2) 200) ∧
  docs answers_collection res1.2 !! a1
  = Some (mkItem (Some 2%Z) (Some [up alice; up bob]) "Click the arrow.") ∧
  res2.1 = Return (Resp (JVotes 1) 200) ∧
  docs answers_collection res2.2 !! a1
  = Some (mkItem (Some 1%Z) (Some [up alice]) "Click the arrow.").
Proof.
  apply (vote_twice hex_ObjectId (as_user bob) "answer" a1 "up"
           (forum 1 [up alice]) a1
           (mkItem (Some 1%Z) (Some [up alice]) "Click the arrow.") bob);
    [reflexivity..|].
  vm_compute. intros Hin. inversion Hin as [|? ? ? Hin']; inversion Hin'.
Defined.

Lemma vote_scenario_witness :
  let res1 := vote hex_ObjectId (as_user alice) "question" q1 "up" (forum 0 []) in
  let res2 := vote hex_ObjectId (as_user bob) "question" q1 "down" res1.2 in
  let res3 := vote hex_ObjectId (as_user alice) "question" q1 "down" res2.2 in
  res1.1 = Return (Resp (JVotes 1) 200) ∧
  docs questions_collection res1.2 !! q1
  = Some (mkItem (Some 1%Z) (Some [up alice]) "How do I vote?") ∧
  res2.1 = Return (Resp (JVotes 0) 200) ∧
  docs questions_collection res2.2 !! q1
  = Some (mkItem (Some 0%Z) (Some [up alice; down bob]) "How do I vote?") ∧
  res3.1 = Return (Resp (JVotes (-2)) 200) ∧
  docs questions_collection res3.2 !! q1
  = Some (mkItem (Some (-2)%Z) (Some [down alice; down bob]) "How do I vote?").
Proof.
  apply (vote_scenario hex_ObjectId (as_user alice) (as_user bob) "question" q1
           (forum 0 []) q1 (mkItem (Some 0%Z) (Some []) "How do I vote?")
           alice bob);
    [reflexivity|reflexivity|split; reflexivity|reflexivity|reflexivity
    |discriminate].
Defined.

(** [sideways] on a vote stored as [up]: the tally of [down], and
    [sideways] recorded. *)
Lemma vote_non_up_witness :
  let st := forum 1 [up alice] in
  let res := vote hex_ObjectId (as_user alice) "question" q1 "sideways" st in
  let res_down := vote hex_ObjectId (as_user alice) "question" q1 "down" st in
  res.1 = Return (Resp (JVotes (1 - 2)) 200) ∧
  docs questions_collection res.2 !! q1
  = Some (mkItem (Some (1 - 2)%Z) (Some [mkVote alice "sideways"]) "How do I vote?") ∧
  ("up" ≠ "down" →
   res_down.1 = res.1 ∧
   docs questions_collection res_down.2 !! q1
   = Some (mkItem (Some (1 - 2)%Z) (Some [down alice]) "How do I vote?")).
Proof.
  apply (vote_non_up hex_ObjectId (as_user alice) "question" q1 "sideways"
           (forum 1 [up alice]) q1
           (mkItem (Some 1%Z) (Some [up alice]) "How do I vote?") alice);
    [discriminate|reflexivity..].
Defined.

Lemma votes_stay_consistent_witness :
  let rs := [mkRequest (as_user alice) "question" q1 "up";
             mkRequest (as_user bob) "question" q1 "down";
             mkRequest (as_user alice) "answer" a1 "down";
             mkRequest (as_user alice) "question" q1 "down"] in
  ∃ item',
    docs questions_collection (serve_all hex_ObjectId (take 3 rs) (forum 0 [])) !! q1
    = Some item' ∧
    NoDup (v_user_id <$> get_voted_by item' []) ∧
    get_votes item' 0%Z = tally (get_voted_by item' []).
Proof.
  apply (votes_stay_consistent hex_ObjectId questions_collection q1
           (mkItem (Some 0%Z) (Some []) "How do I vote?") _ (forum 0 []));
    [reflexivity|split; reflexivity|].
  repeat constructor; (by left) || (by right).
Defined.

(** * Where the code departs from the stated behaviour *)

(** C1 fails as stated.  Alice has voted down and votes [sideways], which
    is not [up]: the stored type [down] differs from [sideways], so the
    vote is taken as a change of type, worth -2, and [sideways] is
    recorded; with [down] the same request removes her vote, worth +1. *)
Lemma sideways_is_not_down :
  let st := forum (-1) [down alice] in
  let res := vote hex_ObjectId (as_user alice) "question" q1 "sideways" st in
  let res_down := vote hex_ObjectId (as_user alice) "question" q1 "down" st in
  "sideways" ≠ "up" ∧
  res.1 = Return (Resp (JVotes (-3)) 200) ∧
  docs questions_collection res.2 !! q1
  = Some (mkItem (Some (-3)%Z) (Some [mkVote alice "sideways"]) "How do I vote?") ∧
  res_down.1 = Return (Resp (JVotes 0) 200) ∧
  docs questions_collection res_down.2 !! q1
  = Some (mkItem (Some 0%Z) (Some []) "How do I vote?") ∧
  res.1 ≠ res_down.1.
Proof.
  split_and!; [discriminate|reflexivity..|].
  vm_compute. discriminate.
Qed.

(** * The tags of a question *)

Section TagsProperties.

Context {char : Type} `{EqDecision char}.
Variable comma : char.
Variable isspace : char → bool.

Implicit Types (s w tag : list char) (ch : char).

Local Abbreviation space := (λ ch, isspace ch = true).

(** ** Stripping *)

Lemma lstrip_suffix s : ∃ w, s = w ++ lstrip isspace s ∧ Forall space w.
Proof.
  induction s as [|ch s (w & Hs & Hw)]; [by exists []|]. cbn.
  destruct (isspace ch) eqn:Hch.
  - exists (ch :: w). split; [by rewrite Hs at 1|]. by constructor.
  - by exists [].
Qed.

Lemma lstrip_head s ch : head (lstrip isspace s) = Some ch → isspace ch = false.
Proof.
  induction s as [|a s IH]; [done|]. cbn.
  destruct (isspace a) eqn:Ha; [done|]. cbn. by intros [= <-].
Qed.

Lemma lstrip_id s :
  (∀ ch, head s = Some ch → isspace ch = false) → lstrip isspace s = s.
Proof. destruct s as [|a s]; [done|]. cbn. intros Hh. by rewrite Hh. Qed.

Lemma lstrip_nil s : lstrip isspace s = [] ↔ Forall space s.
Proof.
  induction s as [|a s IH]; [done|]. cbn. destruct (isspace a) eqn:Ha.
  - rewrite IH, Forall_cons. tauto.
  - split; [done|]. intros [Hsp _]%Forall_cons. congruence.
Qed.

Lemma rstrip_prefix s : ∃ w, s = rstrip isspace s ++ w ∧ Forall space w.
Proof.
  destruct (lstrip_suffix (reverse s)) as (w & Hs & Hw).
  exists (reverse w). split; [|by apply Forall_reverse].
  unfold rstrip. by rewrite <- reverse_app, <- Hs, reverse_involutive.
Qed.

Lemma rstrip_last s ch : last (rstrip isspace s) = Some ch → isspace ch = false.
Proof. unfold rstrip. rewrite last_reverse. apply lstrip_head. Qed.

Lemma rstrip_id s :
  (∀ ch, last s = Some ch → isspace ch = false) → rstrip isspace s = s.
Proof.
  intros Hl. unfold rstrip. rewrite lstrip_id, reverse_involutive; [done|].
  intros ch. rewrite head_reverse. apply Hl.
Qed.

Lemma rstrip_nil s : rstrip isspace s = [] ↔ Forall space s.
Proof.
  unfold rstrip. rewrite <- (Forall_reverse _ s), <- lstrip_nil.
  split; [|by intros ->].
  intros Hr. apply (f_equal reverse) in Hr. by rewrite reverse_involutive in Hr.
Qed.

(** What [strip] removes is white space, on both sides. *)
Lemma strip_inside s :
  ∃ w1 w2, s = w1 ++ strip isspace s ++ w2 ∧ Forall space w1 ∧ Forall space w2.
Proof.
  destruct (lstrip_suffix s) as (w1 & Hs & Hw1).
  destruct (rstrip_prefix (lstrip isspace s)) as (w2 & Hl & Hw2).
  exists w1, w2. split_and!; [|done..]. unfold strip. by rewrite <- Hl.
Qed.

Lemma strip_nil s : strip isspace s = [] ↔ Forall space s.
Proof.
  unfold strip. rewrite rstrip_nil. split.
  - intros Hl. apply lstrip_nil. destruct (lstrip isspace s) as [|a l] eqn:Heq; [done|].
    apply Forall_cons in Hl as [Ha _].
    assert (isspace a = false) by (apply (lstrip_head s); by rewrite Heq).
    congruence.
  - intros Hs. apply lstrip_nil in Hs. by rewrite Hs.
Qed.

Lemma strip_head s ch : head (strip isspace s) = Some ch → isspace ch = false.
Proof.
  intros Hh. apply (lstrip_head s).
  destruct (rstrip_prefix (lstrip isspace s)) as (w & Hl & _).
  rewrite Hl. fold (strip isspace s). by rewrite head_app, Hh.
Qed.

Lemma strip_last s ch : last (strip isspace s) = Some ch → isspace ch = false.
Proof. apply rstrip_last. Qed.

Lemma strip_id s :
  (∀ ch, head s = Some ch → isspace ch = false) →
  (∀ ch, last s = Some ch → isspace ch = false) →
  strip isspace s = s.
Proof. intros Hh Hl. unfold strip. by rewrite lstrip_id, rstrip_id. Qed.

(** ** Splitting *)

Lemma str_split_not_nil s : str_split comma s ≠ [].
Proof.
  destruct s as [|ch s]; [done|]. cbn. case_decide; [done|].
  by destruct (str_split comma s).
Qed.

Lemma str_split_no_comma s :
  Forall (λ piece, comma ∉ piece) (str_split comma s).
Proof.
  induction s as [|ch s IH]; cbn.
  - constructor; [|done]. apply not_elem_of_nil.
  - case_decide as Hch.
    + constructor; [|done]. apply not_elem_of_nil.
    + destruct (str_split comma s) as [|piece pieces].
      * constructor; [|done]. rewrite not_elem_of_cons.
        split; [congruence|apply not_elem_of_nil].
      * apply Forall_cons in IH as [Hp Hps]. constructor; [|done].
        rewrite not_elem_of_cons. split; [congruence|done].
Qed.

Lemma str_split_app_comma s1 s2 :
  str_split comma (s1 ++ comma :: s2) = str_split comma s1 ++ str_split comma s2.
Proof.
  induction s1 as [|ch s1 IH]; cbn.
  - by rewrite decide_True.
  - case_decide; [by rewrite IH|]. rewrite IH.
    pose proof (str_split_not_nil s1).
    by destruct (str_split comma s1).
Qed.

Lemma str_split_without_comma s : comma ∉ s → str_split comma s = [s].
Proof.
  induction s as [|ch s IH]; [done|]. rewrite not_elem_of_cons. intros [Hne Hs].
  cbn. rewrite decide_False by done. by rewrite IH.
Qed.

Lemma str_split_spaces s :
  Forall (Forall space) (str_split comma s) ↔ Forall (λ ch, ch = comma ∨ isspace ch = true) s.
Proof.
  induction s as [|ch s IH]; cbn.
  - split; [done|]. by repeat constructor.
  - rewrite Forall_cons, <- IH. case_decide as Hch.
    + rewrite Forall_cons. split; [intros [_ ?]; by auto|].
      intros [_ ?]. split; [constructor|done].
    + pose proof (str_split_not_nil s).
      destruct (str_split comma s) as [|piece pieces]; [done|].
      rewrite !Forall_cons. split.
      * intros [[Hsp Hp] Hps]. auto.
      * intros [[Hc|Hsp] [Hp Hps]]; [done|auto].
Qed.

(** ** The tags *)

Lemma elem_of_tags form_tags tag :
  tag ∈ ask_question_tags comma isspace form_tags ↔
  ∃ piece, piece ∈ str_split comma form_tags ∧ tag = strip isspace piece ∧ tag ≠ [].
Proof.
  unfold ask_question_tags. rewrite list_elem_of_fmap. split.
  - intros (piece & -> & [Hne Hp]%list_elem_of_filter). by exists piece.
  - intros (piece & Hp & -> & Hne). exists piece. split; [done|].
    by apply list_elem_of_filter.
Qed.

(** X15. No tag is empty, no tag holds a comma, and no tag begins or ends
    with white space. *)
Theorem tags_are_clean form_tags tag :
  tag ∈ ask_question_tags comma isspace form_tags →
  tag ≠ [] ∧ (comma ∉ tag) ∧
  (∀ ch, head tag = Some ch → isspace ch = false) ∧
  (∀ ch, last tag = Some ch → isspace ch = false).
Proof.
  intros (piece & Hp & -> & Hne)%elem_of_tags. split_and!; [done| |..].
  - pose proof (str_split_no_comma form_tags) as Hall.
    rewrite Forall_forall in Hall. specialize (Hall _ Hp).
    destruct (strip_inside piece) as (w1 & w2 & Hpiece & _).
    intros Hin. apply Hall. rewrite Hpiece, !elem_of_app. auto.
  - apply strip_head.
  - apply strip_last.
Qed.

(** X16. The tags of two fields joined by a comma are the tags of the
    first followed by the tags of the second. *)
Theorem tags_of_joined s1 s2 :
  ask_question_tags comma isspace (s1 ++ comma :: s2)
  = ask_question_tags comma isspace s1 ++ ask_question_tags comma isspace s2.
Proof.
  unfold ask_question_tags.
  by rewrite str_split_app_comma, filter_app, fmap_app.
Qed.

(** X17. A field gives no tag at all exactly when it is made of commas and
    white space only; the empty field is one such. *)
Theorem tags_none_iff form_tags :
  ask_question_tags comma isspace form_tags = [] ↔
  Forall (λ ch, ch = comma ∨ isspace ch = true) form_tags.
Proof.
  rewrite <- str_split_spaces. unfold ask_question_tags. split.
  - intros Hnil%fmap_nil_inv. apply Forall_forall. intros piece Hp.
    apply strip_nil. destruct (decide (strip isspace piece = [])) as [|Hne]; [done|].
    assert (piece ∈ filter (λ tag, strip isspace tag ≠ []) (str_split comma form_tags))
      as Hin by by apply list_elem_of_filter.
    rewrite Hnil in Hin. by apply not_elem_of_nil in Hin.
  - intros Hall. rewrite Forall_forall in Hall.
    destruct (filter _ _) as [|piece l] eqn:Hf; [done|].
    assert (piece ∈ filter (λ tag, strip isspace tag ≠ []) (str_split comma form_tags))
      as [Hne Hp]%list_elem_of_filter by (rewrite Hf; apply list_elem_of_here).
    exfalso. apply Hne, strip_nil. by apply Hall.
Qed.

(** X18. A tag entered again as a field comes back as it is, alone. *)
Theorem tags_of_a_tag form_tags tag :
  tag ∈ ask_question_tags comma isspace form_tags →
  ask_question_tags comma isspace tag = [tag].
Proof.
  intros (piece & Hp & -> & Hne)%elem_of_tags.
  assert (comma ∉ strip isspace piece) as Hc.
  { pose proof (str_split_no_comma form_tags) as Hall.
    rewrite Forall_forall in Hall. specialize (Hall _ Hp).
    destruct (strip_inside piece) as (w1 & w2 & Hpiece & _).
    intros Hin. apply Hall. rewrite Hpiece, !elem_of_app. auto. }
  assert (strip isspace (strip isspace piece) = strip isspace piece) as Hid.
  { apply strip_id; [apply strip_head|apply strip_last]. }
  unfold ask_question_tags. rewrite str_split_without_comma by done.
  rewrite filter_cons_True by by rewrite Hid.
  by rewrite filter_nil, fmap_cons, Hid.
Qed.

End TagsProperties.

(** * More of the forum of two users *)

(** A store whose question has neither [votes] nor [voted_by]. *)
Lemma vote_on_bare_document_witness :
  let st : Mongo (Oid:=string) (Fields:=string) :=
    mkMongo ∅ {[q1 := mkItem None None "How do I vote?"]} ∅ [] in
  let res := vote hex_ObjectId (as_user alice) "question" q1 "down" st in
  res.1 = Return (Resp (JVotes (-1)) 200) ∧
  docs questions_collection res.2 !! q1
  = Some (mkItem (Some (-1)%Z) (Some [down alice]) "How do I vote?").
Proof.
  apply (vote_on_bare_document hex_ObjectId (as_user alice) "question" q1 "down"
           _ q1 (mkItem None None "How do I vote?") alice); reflexivity.
Defined.

(** A session whose ['user_id'] is no object id. *)
Lemma vote_bad_session_witness :
  let res := vote hex_ObjectId (as_user "nobody") "question" q1 "up" (forum 0 []) in
  res.1 = Return (Resp (JError "Voting failed") 500) ∧
  ops res.2 = [FindOne questions_collection q1] ∧
  questions res.2 = questions (forum 0 []) ∧
  answers res.2 = answers (forum 0 []) ∧
  users res.2 = users (forum 0 []).
Proof.
  apply (vote_bad_session hex_ObjectId (as_user "nobody") "question" q1 "up"
           (forum 0 []) q1 (mkItem (Some 0%Z) (Some []) "How do I vote?"));
    reflexivity.
Defined.

(** Alice, who voted up, votes up again. *)
Lemma vote_same_type_withdraws_witness :
  let res := vote hex_ObjectId (as_user alice) "question" q1 "up"
               (forum 0 [up alice; down bob]) in
  res.1 = Return (Resp (JVotes (-1)) 200) ∧
  docs questions_collection res.2 !! q1
  = Some (mkItem (Some (-1)%Z) (Some [down bob]) "How do I vote?") ∧
  alice ∉ v_user_id <$> [down bob].
Proof.
  apply (vote_same_type_withdraws hex_ObjectId (as_user alice) "question" q1 "up"
           (forum 0 [up alice; down bob]) q1
           (mkItem (Some 0%Z) (Some [up alice; down bob]) "How do I vote?")
           alice 0 (up alice)); reflexivity.
Defined.

Lemma vote_keeps_other_users_witness :
  let vb := [up alice; down bob] in
  let res := vote hex_ObjectId (as_user bob) "question" q1 "up" (forum 0 vb) in
  ∃ item', docs questions_collection res.2 !! q1 = Some item' ∧
    filter (λ vote, v_user_id vote ≠ bob) (get_voted_by item' [])
    = filter (λ vote, v_user_id vote ≠ bob) vb.
Proof.
  apply (vote_keeps_other_users hex_ObjectId (as_user bob) "question" q1 "up"
           (forum 0 [up alice; down bob]) q1
           (mkItem (Some 0%Z) (Some [up alice; down bob]) "How do I vote?") bob);
    reflexivity.
Defined.

Lemma vote_moves_tally_witness :
  ∃ n, (vote hex_ObjectId (as_user bob) "answer" a1 "up"
          (forum 0 [up alice; down bob])).1
       = Return (Resp (JVotes n) 200) ∧
       (1 ≤ Z.abs (n - 0) ≤ 2)%Z.
Proof.
  apply (vote_moves_tally hex_ObjectId (as_user bob) "answer" a1 "up"
           (forum 0 [up alice; down bob]) a1
           (mkItem (Some 0%Z) (Some [up alice; down bob]) "Click the arrow.") bob);
    reflexivity.
Defined.

Lemma vote_records_intent_witness :
  let vb := [up alice; down bob] in
  let res := vote hex_ObjectId (as_user bob) "answer" a1 "up" (forum 0 vb) in
  ∃ item', docs answers_collection res.2 !! a1 = Some item' ∧
    list_find (λ vote, v_user_id vote = bob) (get_voted_by item' [])
    = Some (1, up bob).
Proof.
  apply (vote_records_intent hex_ObjectId (as_user bob) "answer" a1 "up"
           (forum 0 [up alice; down bob]) a1
           (mkItem (Some 0%Z) (Some [up alice; down bob]) "Click the arrow.") bob);
    reflexivity.
Defined.

(** Alice votes up, then down; Bob has voted down before. *)
Lemma vote_change_of_mind_witness :
  let st := forum (-1) [down bob] in
  let res1 := vote hex_ObjectId (as_user alice) "question" q1 "up" st in
  let res2 := vote hex_ObjectId (as_user alice) "question" q1 "down" res1.2 in
  let alone := vote hex_ObjectId (as_user alice) "question" q1 "down" st in
  res2.1 = alone.1 ∧
  docs questions_collection res2.2 !! q1 = docs questions_collection alone.2 !! q1 ∧
  docs questions_collection alone.2 !! q1
  = Some (mkItem (Some (-1 + -1)%Z) (Some [down bob; down alice]) "How do I vote?").
Proof.
  apply (vote_change_of_mind hex_ObjectId (as_user alice) "question" q1 "up" "down"
           (forum (-1) [down bob]) q1
           (mkItem (Some (-1)%Z) (Some [down bob]) "How do I vote?") alice);
    [reflexivity|reflexivity|reflexivity| |discriminate|by left].
  cbn. rewrite not_elem_of_cons. split; [discriminate|apply not_elem_of_nil].
Defined.

Lemma vote_flip_back_witness :
  let st := forum 0 [up alice; down bob] in
  let res1 := vote hex_ObjectId (as_user alice) "question" q1 "down" st in
  let res2 := vote hex_ObjectId (as_user alice) "question" q1 "up" res1.2 in
  res2.1 = Return (Resp (JVotes 0) 200) ∧
  docs questions_collection res2.2 !! q1
  = Some (mkItem (Some 0%Z) (Some [up alice; down bob]) "How do I vote?").
Proof.
  apply (vote_flip_back hex_ObjectId (as_user alice) "question" q1 "down"
           (forum 0 [up alice; down bob]) q1
           (mkItem (Some 0%Z) (Some [up alice; down bob]) "How do I vote?")
           alice 0 (up alice));
    [reflexivity|reflexivity|reflexivity|reflexivity|discriminate|by left].
Defined.

Lemma votes_keep_one_entry_per_user_witness :
  let rs := [mkRequest (as_user alice) "question" q1 "sideways";
             mkRequest (as_user bob) "question" q1 "down";
             mkRequest (as_user alice) "question" q1 "down"] in
  ∃ item',
    docs questions_collection (serve_all hex_ObjectId rs (forum 1 [up alice])) !! q1
    = Some item' ∧
    NoDup (v_user_id <$> get_voted_by item' []).
Proof.
  apply (votes_keep_one_entry_per_user hex_ObjectId questions_collection q1
           (mkItem (Some 1%Z) (Some [up alice]) "How do I vote?") _
           (forum 1 [up alice])); [reflexivity|].
  cbn. apply NoDup_singleton.
Defined.

Lemma votes_of_two_users_commute_witness :
  let st := forum 1 [up alice] in
  let resA := vote hex_ObjectId (as_user alice) "question" q1 "down" st in
  let resAB := vote hex_ObjectId (as_user bob) "question" q1 "up" resA.2 in
  let resB := vote hex_ObjectId (as_user bob) "question" q1 "up" st in
  let resBA := vote hex_ObjectId (as_user alice) "question" q1 "down" resB.2 in
  resAB.1 = resBA.1 ∧ ∃ n, resAB.1 = Return (Resp (JVotes n) 200).
Proof.
  apply (votes_of_two_users_commute hex_ObjectId (as_user alice) (as_user bob)
           "question" q1 "down" "up" (forum 1 [up alice]) q1
           (mkItem (Some 1%Z) (Some [up alice]) "How do I vote?") alice bob);
    [reflexivity..|discriminate].
Defined.

(** The field [" rocq, ,machine learning ,,"] has the two tags [rocq] and
    [machine learning]. *)
Lemma tags_are_clean_witness :
  let tag := chars "machine learning" in
  tag ≠ [] ∧ (","%char ∉ tag) ∧
  (∀ ch, head tag = Some ch → ascii_isspace ch = false) ∧
  (∀ ch, last tag = Some ch → ascii_isspace ch = false).
Proof.
  apply (tags_are_clean ","%char ascii_isspace
           (chars " rocq, ,machine learning ,,") (chars "machine learning")).
  vm_compute. apply list_elem_of_further, list_elem_of_here.
Defined.

Lemma tags_of_a_tag_witness :
  ask_question_tags ","%char ascii_isspace (chars "machine learning")
  = [chars "machine learning"].
Proof.
  apply (tags_of_a_tag ","%char ascii_isspace
           (chars " rocq, ,machine learning ,,") (chars "machine learning")).
  vm_compute. apply list_elem_of_further, list_elem_of_here.
Defined.
